(** * pyqgiswps.executors.io.geometryio

    A shallow embedding of [src/pyqgiswps/executors/io/geometryio.py]: the
    conversion of WPS inputs (WKT with an optional [CRS=] prefix, GeoJSON,
    GML, bounding boxes) into QGIS processing values.

    - Python [str] is a list of Unicode code points.
    - The compiled pattern [WKT_EXPR] is a term of a small regular-expression
      syntax, run by a backtracking matcher that tries alternatives in the
      order Python's [re] does.
    - [qgis.core], [osgeo.ogr], the [Format] class and Python's [float] are
      not part of the module: they form the interface [GeoLib], over which
      every function of the module is defined.
    - Exceptions are values of [exn]; a function that may raise returns a
      [result]. *)

From Stdlib Require Import String Ascii.
From Stdlib Require Import List NArith ZArith Bool Lia.
From Stdlib Require DecimalString HexadecimalString DecimalPos.
Import ListNotations.

(** ** Python strings *)

Definition char := N.
Definition str := list char.

(** The code points of an ASCII literal. *)
Definition u (s : string) : str :=
  map N_of_ascii (list_ascii_of_string s).

Definition LF : char := 10%N.
Definition SEMI : char := 59%N.

Fixpoint str_eqb (a b : str) : bool :=
  match a, b with
  | [], [] => true
  | x :: a', y :: b' => N.eqb x y && str_eqb a' b'
  | _, _ => false
  end.

(** [str.isspace] on one code point, which is what [\s] tests in a [str]
    pattern. *)
Definition is_space (c : char) : bool :=
  ((9 <=? c) && (c <=? 13) || (28 <=? c) && (c <=? 32)
   || (c =? 133) || (c =? 160) || (c =? 5760)
   || (8192 <=? c) && (c <=? 8202)
   || (c =? 8232) || (c =? 8233) || (c =? 8239) || (c =? 8287)
   || (c =? 12288))%N.

(** [s] without its leading whitespace. *)
Fixpoint skip_ws (s : str) : str :=
  match s with
  | c :: s' => if is_space c then skip_ws s' else s
  | [] => []
  end.

(** [.] without [re.DOTALL]: anything but a line feed. *)
Definition is_dot (c : char) : bool := negb (c =? LF)%N.

(** ** Regular expressions, as far as [WKT_EXPR] needs them *)

Module Re.

Inductive cls := Space | Dot.

Inductive re :=
| Bol                                   (* ^ *)
| Eol                                   (* $ *)
| Lit (c : char)
| Star (k : cls) (greedy : bool)        (* k* and k*? *)
| Group (i : nat) (r : re)              (* ( r ), numbered i *)
| Opt (r : re)                          (* (?: r )? *)
| Seq (r1 r2 : re).

Definition cls_test (k : cls) : char -> bool :=
  match k with Space => is_space | Dot => is_dot end.

(** Captured groups: the latest binding of a number wins. *)
Definition caps := list (nat * str).

Fixpoint get (i : nat) (cs : caps) : option str :=
  match cs with
  | [] => None
  | (j, s) :: cs' => if Nat.eqb i j then Some s else get i cs'
  end.

Definition orelse {A} (a b : option A) : option A :=
  match a with Some _ => a | None => b end.

(** [$] without [re.MULTILINE]: at the end of the subject, or just before a
    line feed that ends it. *)
Definition at_end (rest : str) : bool :=
  match rest with
  | [] => true
  | [c] => (c =? LF)%N
  | _ => false
  end.

(** A starred class followed by the continuation [k]: the greedy star takes
    one more character first and gives it back on failure, the lazy star
    tries [k] first. *)
Fixpoint star (p : char -> bool) (greedy : bool) (rest : str)
              (k : str -> option caps) : option caps :=
  match rest with
  | [] => k []
  | c :: rest' =>
      if p c then
        if greedy then orelse (star p greedy rest' k) (k rest)
        else orelse (k rest) (star p greedy rest' k)
      else k rest
  end.

(** [run n r rest cs k]: match [r] at the position where [rest] is what is
    left of a subject of length [n], then continue with [k]. *)
Fixpoint run (n : nat) (r : re) (rest : str) (cs : caps)
             (k : str -> caps -> option caps) : option caps :=
  match r with
  | Bol => if Nat.eqb (length rest) n then k rest cs else None
  | Eol => if at_end rest then k rest cs else None
  | Lit c =>
      match rest with
      | c' :: rest' => if (c' =? c)%N then k rest' cs else None
      | [] => None
      end
  | Star q g => star (cls_test q) g rest (fun rest' => k rest' cs)
  | Group i r1 =>
      run n r1 rest cs
          (fun rest' cs' =>
             k rest' ((i, firstn (length rest - length rest') rest) :: cs'))
  | Opt r1 => orelse (run n r1 rest cs k) (k rest cs)
  | Seq r1 r2 => run n r1 rest cs (fun rest' cs' => run n r2 rest' cs' k)
  end.

(** [pattern.match(s)]: anchored at position 0; [None] is Python's [None]. *)
Definition match_ (r : re) (s : str) : option caps :=
  run (length s) r s [] (fun _ cs => Some cs).

(** [m.groups(default)] for a pattern of two groups. *)
Definition groups (default : str) (m : caps) : list str :=
  map (fun i => match get i m with Some s => s | None => default end) [1; 2].

Fixpoint lits (s : str) (r : re) : re :=
  match s with
  | [] => r
  | c :: s' => Seq (Lit c) (lits s' r)
  end.

End Re.

(** The text of the pattern that the module compiles into [WKT_EXPR]. *)
Definition WKT_EXPR_pattern : string := "^\s*(?:CRS=(.*);)?(.*?)$".

(** [WKT_EXPR = re.compile(WKT_EXPR_pattern)], read off the text: anchor,
    greedy whitespace, the optional non-capturing group around the literal
    prefix, the greedy group 1 and the semicolon, then the lazy group 2 and
    the end anchor. *)
Definition WKT_EXPR : Re.re :=
  Re.Seq Re.Bol
 (Re.Seq (Re.Star Re.Space true)
 (Re.Seq (Re.Opt (Re.lits (u "CRS=")
                   (Re.Seq (Re.Group 1 (Re.Star Re.Dot true))
                           (Re.Lit SEMI))))
 (Re.Seq (Re.Group 2 (Re.Star Re.Dot false))
          Re.Eol))).

(** ** Exceptions and results *)

Inductive exn :=
| InvalidParameterValue (msg : str)     (* pyqgiswps.exceptions *)
| NoApplicableCode (msg : str)          (* pyqgiswps.exceptions *)
| TypeError                             (* builtins *)
| ValueError
| IndexError.

Inductive result (A : Type) :=
| Return (a : A)
| Raise (e : exn).

Arguments Return {A} a.
Arguments Raise {A} e.

Definition bind {A B} (m : result A) (f : A -> result B) : result B :=
  match m with
  | Return a => f a
  | Raise e => Raise e
  end.

Notation "x <- m ;; f" := (bind m (fun x => f))
  (at level 61, m at next level, right associativity).

(** ** What the module imports

    The operations of [qgis.core] and [osgeo.ogr] that the module calls, the
    [Format] descriptors of [pyqgiswps.inout.formats] and Python's [float]
    on a string.  [None] stands for Python's [None]; an OGR geometry or
    spatial reference that exists is truthy. *)

Class GeoLib := {
  (* qgis.core *)
  QgsGeometry : Type;
  QgsCoordinateReferenceSystem : Type;
  QgsPointXY : Type;
  QgsRectangle : Type;
  Float : Type;
  fromWkt : str -> QgsGeometry;                 (* QgsGeometry.fromWkt *)
  isNull : QgsGeometry -> bool;
  asWkt : QgsGeometry -> str;
  centroid : QgsGeometry -> QgsGeometry;
  asPoint : QgsGeometry -> QgsPointXY;
  crs_new : str -> QgsCoordinateReferenceSystem;
                                  (* QgsCoordinateReferenceSystem(definition) *)
  crs_fromWkt : str -> QgsCoordinateReferenceSystem;
  isValid : QgsCoordinateReferenceSystem -> bool;
  rect_new : Float -> Float -> Float -> Float -> QgsRectangle;
                               (* QgsRectangle(xMin, yMin, xMax, yMax) *)
  (* osgeo.ogr *)
  OgrGeometry : Type;
  SpatialReference : Type;
  CreateGeometryFromJson : str -> option OgrGeometry;
  CreateGeometryFromGML : str -> option OgrGeometry;
  GetSpatialReference : OgrGeometry -> option SpatialReference;
  ExportToWkt : OgrGeometry -> str;
  srs_ExportToWkt : SpatialReference -> str;
  (* builtins *)
  float_of_str : str -> option Float;
  (* pyqgiswps.inout.formats *)
  Format : Type;
  mime_type : Format -> str;
  format_str : Format -> str;                   (* str(format), as in '%s' *)
  FORMATS_WKT : Format;
  FORMATS_GEOJSON : Format;
  FORMATS_GML : Format
}.

Section Geometryio.

Context {L : GeoLib}.

(** The values the conversions hand to the processing engine.  The module
    never builds a bare [QgsPointXY]; the constructor is there to speak of
    one. *)
Inductive value :=
| VGeometry (g : QgsGeometry)
| VReferencedGeometry (g : QgsGeometry) (crs : QgsCoordinateReferenceSystem)
| VPointXY (p : QgsPointXY)
| VReferencedPointXY (p : QgsPointXY) (crs : QgsCoordinateReferenceSystem)
| VReferencedRectangle (r : QgsRectangle) (crs : QgsCoordinateReferenceSystem).

(** An element of a sequence payload: a numeric string or a number. *)
Inductive item :=
| IStr (s : str)
| INum (x : Float).

(** [inp.data]: a text, or a sequence (the bounding box case). *)
Inductive payload :=
| PText (s : str)
| PSeq (l : list item).

(** A WPS input, with the attributes the module reads. *)
Record WPSInput := {
  data : payload;
  data_format : Format;
  crs : str
}.

(** A payload passed where a [str] is required. *)
Definition as_text (d : payload) : result str :=
  match d with
  | PText s => Return s
  | PSeq _ => Raise TypeError
  end.

(** [r[i]]: indexing a string gives a string of one character. *)
Definition index (r : payload) (i : nat) : result item :=
  match r with
  | PText s =>
      match nth_error s i with
      | Some c => Return (IStr [c])
      | None => Raise IndexError
      end
  | PSeq l =>
      match nth_error l i with
      | Some x => Return x
      | None => Raise IndexError
      end
  end.

(** [float(x)] *)
Definition py_float (x : item) : result Float :=
  match x with
  | INum f => Return f
  | IStr s =>
      match float_of_str s with
      | Some f => Return f
      | None => Raise ValueError
      end
  end.

(** [wkt_to_goeometry]: a match object is always truthy, so [if m] tests
    for [None]. *)
Definition wkt_to_goeometry (wkt : str) : result value :=
  match Re.match_ WKT_EXPR wkt with
  | Some m =>
      let g := fromWkt (nth 1 (Re.groups [] m) []) in
      if negb (isNull g) then
        let crs := crs_new (nth 0 (Re.groups [] m) []) in
        if isValid crs then Return (VReferencedGeometry g crs)
        else Return (VGeometry g)
      else Return (VGeometry g)
  | None => Raise (InvalidParameterValue (u "Invalid wkt format"))
  end.

(** The two OGR branches of [input_to_geometry]: [geom] stays [None] for
    any other MIME type. *)
Definition ogr_parse (inp : WPSInput) : result (option OgrGeometry) :=
  let data_format := data_format inp in
  if str_eqb (mime_type data_format) (mime_type FORMATS_GEOJSON) then
    text <- as_text (data inp) ;;
    match CreateGeometryFromJson text with
    | Some geom => Return (Some geom)
    | None => Raise (InvalidParameterValue (u "Invalid geojson format"))
    end
  else if str_eqb (mime_type data_format) (mime_type FORMATS_GML) then
    text <- as_text (data inp) ;;
    match CreateGeometryFromGML text with
    | Some geom => Return (Some geom)
    | None => Raise (InvalidParameterValue (u "Invalid gml format"))
    end
  else Return None.

(** The [if geom:] block: re-export, re-construct, re-attach the CRS. *)
Definition ogr_to_qgis (geom : OgrGeometry) : value :=
  let srs := GetSpatialReference geom in
  let g := fromWkt (ExportToWkt geom) in
  match srs with
  | Some srs =>
      let crs := crs_fromWkt (srs_ExportToWkt srs) in
      if isValid crs then VReferencedGeometry g crs else VGeometry g
  | None => VGeometry g
  end.

Definition input_to_geometry (inp : WPSInput) : result value :=
  let data_format := data_format inp in
  if str_eqb (mime_type data_format) (mime_type FORMATS_WKT) then
    text <- as_text (data inp) ;;
    wkt_to_goeometry text
  else
    geom <- ogr_parse inp ;;
    match geom with
    | Some geom => Return (ogr_to_qgis geom)
    | None =>
        Raise (NoApplicableCode
                 (u "Unsupported data format: " ++ format_str data_format))
    end.

Definition input_to_point (inp : WPSInput) : result value :=
  g <- input_to_geometry inp ;;
  match g with
  | VReferencedGeometry g crs =>
      Return (VReferencedPointXY (asPoint (centroid g)) crs)
  | _ => Return g
  end.

Definition input_to_extent (inp : WPSInput) : result value :=
  let r := data inp in
  r0 <- index r 0 ;; x0 <- py_float r0 ;;
  r2 <- index r 2 ;; x2 <- py_float r2 ;;
  r1 <- index r 1 ;; x1 <- py_float r1 ;;
  r3 <- index r 3 ;; x3 <- py_float r3 ;;
  let rect := rect_new x0 x2 x1 x3 in
  let ref := crs_new (crs inp) in
  Return (VReferencedRectangle rect ref).

(** The CRS a value carries, and the geometry of a geometry value. *)
Definition crs_of (v : value) : option QgsCoordinateReferenceSystem :=
  match v with
  | VGeometry _ | VPointXY _ => None
  | VReferencedGeometry _ c | VReferencedPointXY _ c
  | VReferencedRectangle _ c => Some c
  end.


End Geometryio.

(** ** A small instance of the interface

    Integer coordinates, points and line strings, EPSG codes: enough to run
    the module on concrete requests.  The WKT reader separates tokens by
    whitespace of any kind, as WKT readers do. *)

Module Toy.

Inductive geom :=
| Null
| Point (x y : Z)
| LineString (pts : list (Z * Z)).

Inductive tcrs :=
| Invalid
| Epsg (code : N).

Record ogr_geom := { ogr_xy : Z * Z; ogr_srs : option N }.

Definition digit (c : char) : option N :=
  if ((48 <=? c) && (c <=? 57))%N then Some (c - 48)%N else None.

Fixpoint read_digits (s : str) (acc : N) : N * str :=
  match s with
  | c :: s' =>
      match digit c with
      | Some d => read_digits s' (10 * acc + d)%N
      | None => (acc, s)
      end
  | [] => (acc, [])
  end.

Definition read_nat (s : str) : option (N * str) :=
  match s with
  | c :: _ => match digit c with
              | Some _ => Some (read_digits s 0%N)
              | None => None
              end
  | [] => None
  end.

Definition read_int (s : str) : option (Z * str) :=
  match s with
  | 45%N :: s' =>
      match read_nat s' with
      | Some (n, r) => Some (Z.opp (Z.of_N n), r)
      | None => None
      end
  | _ =>
      match read_nat s with
      | Some (n, r) => Some (Z.of_N n, r)
      | None => None
      end
  end.

Definition upper (c : char) : char :=
  if ((97 <=? c) && (c <=? 122))%N then (c - 32)%N else c.

(** [s] without the prefix [p], letters compared without case. *)
Fixpoint strip (p s : str) : option str :=
  match p, s with
  | [], _ => Some s
  | a :: p', b :: s' => if (upper a =? upper b)%N then strip p' s' else None
  | _ :: _, [] => None
  end.

Definition read_pair (s : str) : option ((Z * Z) * str) :=
  match read_int (skip_ws s) with
  | Some (x, r) =>
      match read_int (skip_ws r) with
      | Some (y, r') => Some ((x, y), r')
      | None => None
      end
  | None => None
  end.

(** Pairs separated by commas, up to the closing parenthesis. *)
Fixpoint read_pairs (fuel : nat) (s : str) : option (list (Z * Z) * str) :=
  match fuel with
  | O => None
  | S fuel' =>
      match read_pair s with
      | Some (p, r) =>
          match skip_ws r with
          | 44%N :: r' =>
              match read_pairs fuel' r' with
              | Some (ps, r'') => Some (p :: ps, r'')
              | None => None
              end
          | 41%N :: r' => Some ([p], r')
          | _ => None
          end
      | None => None
      end
  end.

Definition read_body (s : str) : option (list (Z * Z)) :=
  match skip_ws s with
  | 40%N :: r =>
      match read_pairs (length r) r with
      | Some (ps, r') => match skip_ws r' with [] => Some ps | _ => None end
      | None => None
      end
  | _ => None
  end.

Definition from_wkt (s : str) : geom :=
  let s := skip_ws s in
  match strip (u "POINT") s with
  | Some r =>
      match read_body r with
      | Some [(x, y)] => Point x y
      | _ => Null
      end
  | None =>
      match strip (u "LINESTRING") s with
      | Some r =>
          match read_body r with
          | Some (p :: q :: ps) => LineString (p :: q :: ps)
          | _ => Null
          end
      | None => Null
      end
  end.

Definition show (z : Z) : str :=
  u (DecimalString.NilZero.string_of_int (Z.to_int z)).

Definition show_pair (p : Z * Z) : str :=
  show (fst p) ++ u " " ++ show (snd p).

Fixpoint show_pairs (ps : list (Z * Z)) : str :=
  match ps with
  | [] => []
  | [p] => show_pair p
  | p :: ps' => show_pair p ++ u ", " ++ show_pairs ps'
  end.

Definition as_wkt (g : geom) : str :=
  match g with
  | Null => []
  | Point x y => u "Point (" ++ show_pair (x, y) ++ u ")"
  | LineString ps => u "LineString (" ++ show_pairs ps ++ u ")"
  end.

Definition is_null (g : geom) : bool :=
  match g with Null => true | _ => false end.

(** The mean of the vertices: the centroid_of of a point and of a segment. *)
Definition centroid_of (g : geom) : geom :=
  match g with
  | LineString ps =>
      let n := Z.of_nat (length ps) in
      Point (fold_right Z.add 0%Z (map fst ps) / n)
            (fold_right Z.add 0%Z (map snd ps) / n)
  | _ => g
  end.

Definition as_point (g : geom) : Z * Z :=
  match g with Point x y => (x, y) | _ => (0%Z, 0%Z) end.

Definition crs_of_string (s : str) : tcrs :=
  match strip (u "EPSG:") s with
  | Some r => match read_nat r with
              | Some (n, []) => Epsg n
              | _ => Invalid
              end
  | None => Invalid
  end.

Definition is_valid (c : tcrs) : bool :=
  match c with Epsg _ => true | Invalid => false end.

Definition dq (s : string) : str := [34%N] ++ u s ++ [34%N].

(** [prefix x sep y suffix], whitespace removed. *)
Definition read_xy (prefix sep suffix : str) (s : str) : option (Z * Z) :=
  let s := filter (fun c => negb (is_space c)) s in
  match strip prefix s with
  | Some r =>
      match read_int r with
      | Some (x, r1) =>
          match strip sep r1 with
          | Some r2 =>
              match read_int r2 with
              | Some (y, r3) => if str_eqb r3 suffix then Some (x, y) else None
              | None => None
              end
          | None => None
          end
      | None => None
      end
  | None => None
  end.

(** A GeoJSON point; OGR gives GeoJSON geometries the WGS 84 reference. *)
Definition from_json (s : str) : option ogr_geom :=
  match read_xy (u "{" ++ dq "type" ++ u ":" ++ dq "Point" ++ u ","
                   ++ dq "coordinates" ++ u ":[") (u ",") (u "]}") s with
  | Some p => Some {| ogr_xy := p; ogr_srs := Some 4326%N |}
  | None => None
  end.

(** A GML point without [srsName]. *)
Definition from_gml (s : str) : option ogr_geom :=
  match read_xy (u "<gml:Point><gml:coordinates>") (u ",")
                (u "</gml:coordinates></gml:Point>") s with
  | Some p => Some {| ogr_xy := p; ogr_srs := None |}
  | None => None
  end.

Definition export_wkt (g : ogr_geom) : str :=
  u "POINT (" ++ show_pair (ogr_xy g) ++ u ")".

Definition srs_wkt (n : N) : str := u "EPSG:" ++ show (Z.of_N n).

Definition parse_float (s : str) : option Z :=
  match read_int (skip_ws s) with
  | Some (z, r) => match skip_ws r with [] => Some z | _ => None end
  | None => None
  end.

#[export] Instance lib : GeoLib := {|
  QgsGeometry := geom;
  QgsCoordinateReferenceSystem := tcrs;
  QgsPointXY := Z * Z;
  QgsRectangle := Z * Z * Z * Z;
  Float := Z;
  fromWkt := from_wkt;
  isNull := is_null;
  asWkt := as_wkt;
  centroid := centroid_of;
  asPoint := as_point;
  crs_new := crs_of_string;
  crs_fromWkt := crs_of_string;
  isValid := is_valid;
  rect_new := fun a b c d => (a, b, c, d);
  OgrGeometry := ogr_geom;
  SpatialReference := N;
  CreateGeometryFromJson := from_json;
  CreateGeometryFromGML := from_gml;
  GetSpatialReference := ogr_srs;
  ExportToWkt := export_wkt;
  srs_ExportToWkt := srs_wkt;
  float_of_str := parse_float;
  Format := str;
  mime_type := fun f => f;
  format_str := fun f => f;
  FORMATS_WKT := u "application/wkt";
  FORMATS_GEOJSON := u "application/vnd.geo+json";
  FORMATS_GML := u "application/gml+xml"
|}.

Definition wkt_input (s : str) : WPSInput :=
  {| data := PText s; data_format := u "application/wkt"; crs := [] |}.

Definition geojson_input (s : str) : WPSInput :=
  {| data := PText s; data_format := u "application/vnd.geo+json"; crs := [] |}.

Definition complex_input (s f : str) : WPSInput :=
  {| data := PText s; data_format := f; crs := [] |}.

Definition num (z : Z) : item := INum z.

Definition bbox_input (l : list item) (f c : str) : WPSInput :=
  {| data := PSeq l; data_format := f; crs := c |}.

End Toy.

(** ** The shape of the strings [WKT_EXPR] accepts *)

(** A text that holds no line feed, except possibly as its last character. *)
Fixpoint one_line (r : str) : bool :=
  match r with
  | [] => true
  | c :: r' => match r' with
               | [] => true
               | _ :: _ => is_dot c && one_line r'
               end
  end.

Fixpoint starts_with (p s : str) : bool :=
  match p, s with
  | [], _ => true
  | a :: p', b :: s' => (a =? b)%N && starts_with p' s'
  | _ :: _, [] => false
  end.

(** The text opens with [CRS=] and has a semicolon to close the prefix. *)
Definition has_crs_prefix (s : str) : bool :=
  starts_with (u "CRS=") s && existsb (N.eqb SEMI) s.

(** What is left of [WKT_EXPR] after the leading whitespace, as the matcher
    runs it: the body with its end anchor, the prefix, and their choice. *)
Definition body_k (r : str) (cs : Re.caps) : str -> option Re.caps :=
  fun r' =>
    if Re.at_end r'
    then Some ((2, firstn (length r - length r') r) :: cs)
    else None.

Definition body_run (r : str) (cs : Re.caps) : option Re.caps :=
  Re.star is_dot false r (body_k r cs).

Definition spec_k (r1 : str) : str -> option Re.caps :=
  fun r2 =>
    match r2 with
    | c :: r3 =>
        if (c =? SEMI)%N
        then body_run r3 [(1, firstn (length r1 - length r2) r1)]
        else None
    | [] => None
    end.

Definition lit_k (c : char) (k : str -> option Re.caps) : str -> option Re.caps :=
  fun r =>
    match r with
    | c' :: r' => if (c' =? c)%N then k r' else None
    | [] => None
    end.

Definition prefix_run : str -> option Re.caps :=
  lit_k 67%N (lit_k 82%N (lit_k 83%N (lit_k 61%N
    (fun r1 => Re.star is_dot true r1 (spec_k r1))))).

Definition after_ws (r : str) : option Re.caps :=
  Re.orelse (prefix_run r) (body_run r []).

(** [r] without one final line feed. *)
Fixpoint chomp (r : str) : str :=
  match r with
  | [] => []
  | c :: r' => match r' with
               | [] => if is_dot c then [c] else []
               | _ :: _ => c :: chomp r'
               end
  end.

Section Conditions.

Context {L : GeoLib}.

(** The input declares the MIME type of [f]. *)
Definition declares (inp : WPSInput) (f : Format) : Prop :=
  mime_type (data_format inp) = mime_type f.

(** The input takes one of the two OGR branches of [input_to_geometry] and
    OGR builds [geom] from its text. *)
Definition decoded_by_ogr (inp : WPSInput) (geom : OgrGeometry) : Prop :=
  ~ declares inp FORMATS_WKT /\
  exists text, data inp = PText text /\
    ((declares inp FORMATS_GEOJSON /\ CreateGeometryFromJson text = Some geom)
     \/ (~ declares inp FORMATS_GEOJSON /\ declares inp FORMATS_GML
         /\ CreateGeometryFromGML text = Some geom)).

(** The same input under another declared format. *)
Definition with_format (f : Format) (inp : WPSInput) : WPSInput :=
  {| data := data inp; data_format := f; crs := crs inp |}.

End Conditions.

(** ** Processing parameters and their inputs

    [parse_input_definition] and [get_processing_value] look at a processing
    parameter through [param.type()] and through [isinstance] against
    [QgsProcessingParameterGeometry] and [QgsProcessingParameterPoint]. *)

Inductive param_class :=
| ParameterGeometry          (* QgsProcessingParameterGeometry, or a subclass *)
| ParameterPoint             (* QgsProcessingParameterPoint, or a subclass *)
| ParameterOther.            (* any other parameter definition *)

Record QgsProcessingParameterDefinition := {
  param_type : str;                             (* param.type() *)
  param_class_of : param_class
}.

Definition param_class_eqb (a b : param_class) : bool :=
  match a, b with
  | ParameterGeometry, ParameterGeometry => true
  | ParameterPoint, ParameterPoint => true
  | ParameterOther, ParameterOther => true
  | _, _ => false
  end.

(** [isinstance(param, classes)] *)
Definition isinstance (param : QgsProcessingParameterDefinition)
           (classes : list param_class) : bool :=
  existsb (param_class_eqb (param_class_of param)) classes.

(** [GeometryParameterTypes =
     (QgsProcessingParameterPoint, QgsProcessingParameterGeometry)] *)
Definition GeometryParameterTypes : list param_class :=
  [ParameterPoint; ParameterGeometry].

(** What the two functions take from [pyqgiswps.inout] and from the caller:
    the values a caller may put in [kwargs], [Format.from_definition] (an
    entry of [FORMATS] and a [Format] object both carry a MIME type and
    share the type [Format]), and the processing context. *)
Class Inout {L : GeoLib} := {
  Any : Type;
  from_definition : Format -> Format;
  ProcessingContext : Type
}.

Section Parameters.

Context {L : GeoLib} {IO : Inout}.

(** A value of the [kwargs] dict. *)
Inductive kwvalue :=
| KwCrss (l : list str)
| KwFormats (l : list Format)
| KwAny (x : Any).

(** [kwargs]: a dict, as the list of its items in insertion order. *)
Definition kwargs := list (str * kwvalue).

(** [d[k] = v]: the value of an existing key is replaced where it stands, a
    new key is added at the end. *)
Fixpoint dict_set (k : str) (v : kwvalue) (d : kwargs) : kwargs :=
  match d with
  | [] => [(k, v)]
  | (k', v') :: d' =>
      if str_eqb k' k then (k', v) :: d' else (k', v') :: dict_set k v d'
  end.

Fixpoint dict_get (k : str) (d : kwargs) : option kwvalue :=
  match d with
  | [] => None
  | (k', v') :: d' => if str_eqb k' k then Some v' else dict_get k d'
  end.

(** The input objects the function builds, each with the keyword arguments
    its constructor receives. *)
Inductive input_definition :=
| BoundingBoxInput (kw : kwargs)
| ComplexInput (kw : kwargs).

(** [parse_input_definition]: the caller's dict is updated in place, so the
    function returns it beside its result; [None] is Python's [None]. *)
Definition parse_input_definition (param : QgsProcessingParameterDefinition)
           (kw : kwargs) : kwargs * option input_definition :=
  let typ := param_type param in
  if str_eqb typ (u "extent") then
    let kw := dict_set (u "crss") (KwCrss [u "EPSG:4326"]) kw in
    (kw, Some (BoundingBoxInput kw))
  else if isinstance param GeometryParameterTypes then
    let kw := dict_set (u "supported_formats")
                (KwFormats [from_definition FORMATS_GEOJSON;
                            from_definition FORMATS_GML;
                            from_definition FORMATS_WKT]) kw in
    (kw, Some (ComplexInput kw))
  else (kw, None).

(** [inp[0]] on the list of the inputs given for a parameter. *)
Definition first_input (inp : list WPSInput) : result WPSInput :=
  match inp with
  | i :: _ => Return i
  | [] => Raise IndexError
  end.

(** [get_processing_value]: [None] is the value of a parameter that is
    neither a geometry, nor a point, nor an extent. *)
Definition get_processing_value (param : QgsProcessingParameterDefinition)
           (inp : list WPSInput) (context : ProcessingContext)
  : result (option value) :=
  if isinstance param [ParameterGeometry] then
    i <- first_input inp ;; value <- input_to_geometry i ;;
    Return (Some value)
  else if isinstance param [ParameterPoint] then
    i <- first_input inp ;; value <- input_to_point i ;;
    Return (Some value)
  else if str_eqb (param_type param) (u "extent") then
    i <- first_input inp ;; value <- input_to_extent i ;;
    Return (Some value)
  else Return None.

End Parameters.

(** The instance at hand has no keyword values of its own and formats that
    are their MIME type. *)
Module ToyIO.

#[export] Instance io : @Inout Toy.lib := {|
  Any := str;
  from_definition := fun f => f;
  ProcessingContext := unit
|}.

Definition param (t : str) (c : param_class)
  : QgsProcessingParameterDefinition :=
  {| param_type := t; param_class_of := c |}.

Definition any (s : str) : @kwvalue Toy.lib io := @KwAny Toy.lib io s.

End ToyIO.

(** ** The pattern, read as a splitter

    A direct reading of what [WKT_EXPR] captures, to compare the matcher
    with. *)

(** [s] cut at its last semicolon: what stands before and after it. *)
Fixpoint cut_last_semi (s : str) : option (str * str) :=
  match s with
  | [] => None
  | c :: s' =>
      match cut_last_semi s' with
      | Some (a, b) => Some (c :: a, b)
      | None => if (c =? SEMI)%N then Some ([], s') else None
      end
  end.

(** The specifier and the body of a text: none unless the text, after its
    leading whitespace, lies on one line; the text without its final line
    feed is cut at the last semicolon when it opens with [CRS=], and is the
    body otherwise. *)
Definition split_wkt (s : str) : option (str * str) :=
  let r := skip_ws s in
  if one_line r then
    let x := chomp r in
    match (if starts_with (u "CRS=") x
           then cut_last_semi (skipn 4 x) else None) with
    | Some (c, b) => Some (c, b)
    | None => Some ([], x)
    end
  else None.

(** ** Format objects as Python prints them

    The instance of [Toy], with [Format] objects of a class that defines
    neither [__str__] nor [__repr__]: [str(format)] is then the class of
    the object and its address, which is all that ['%s' % data_format]
    puts into a message. *)

Module Repr.

Record format := { mime : str; address : N }.

Definition hex (n : N) : str :=
  u (HexadecimalString.NilZero.string_of_uint (N.to_hex_uint n)).

(** [object.__repr__] *)
Definition default_repr (f : format) : str :=
  u "<pyqgiswps.inout.formats.Format object at 0x" ++ hex (address f)
    ++ u ">".

#[export] Instance lib : GeoLib := {|
  QgsGeometry := Toy.geom;
  QgsCoordinateReferenceSystem := Toy.tcrs;
  QgsPointXY := Z * Z;
  QgsRectangle := Z * Z * Z * Z;
  Float := Z;
  fromWkt := Toy.from_wkt;
  isNull := Toy.is_null;
  asWkt := Toy.as_wkt;
  centroid := Toy.centroid_of;
  asPoint := Toy.as_point;
  crs_new := Toy.crs_of_string;
  crs_fromWkt := Toy.crs_of_string;
  isValid := Toy.is_valid;
  rect_new := fun a b c d => (a, b, c, d);
  OgrGeometry := Toy.ogr_geom;
  SpatialReference := N;
  CreateGeometryFromJson := Toy.from_json;
  CreateGeometryFromGML := Toy.from_gml;
  GetSpatialReference := Toy.ogr_srs;
  ExportToWkt := Toy.export_wkt;
  srs_ExportToWkt := Toy.srs_wkt;
  float_of_str := Toy.parse_float;
  Format := format;
  mime_type := mime;
  format_str := default_repr;
  FORMATS_WKT := {| mime := u "application/wkt"; address := 139823937330000 |};
  FORMATS_GEOJSON :=
    {| mime := u "application/vnd.geo+json"; address := 139823937330256 |};
  FORMATS_GML :=
    {| mime := u "application/gml+xml"; address := 139823937330512 |}
|}.

Definition complex_input (s : str) (f : format) : WPSInput :=
  {| data := PText s; data_format := f; crs := [] |}.

End Repr.

(** [needle in hay] *)
Fixpoint contains (needle hay : str) : bool :=
  starts_with needle hay
  || match hay with
     | [] => false
     | _ :: hay' => contains needle hay'
     end.

(** ** What a round trip through WKT asks of the geometry library *)

Section RoundTrip.

Context {L : GeoLib}.


End RoundTrip.



(** * Facts *)

(** ** Lists of code points *)

Lemma str_eqb_eq (a b : str) : str_eqb a b = true <-> a = b.
Proof.
  revert b; induction a as [|x a IH]; intros [|y b]; simpl;
    try (split; [discriminate | discriminate]); try tauto.
  rewrite andb_true_iff, N.eqb_eq, IH.
  split; [intros [-> ->]; reflexivity | intros H; inversion H; auto].
Qed.


Lemma str_eqb_neq (a b : str) : a <> b -> str_eqb a b = false.
Proof.
  intros H; destruct (str_eqb a b) eqn:E; [|reflexivity].
  apply str_eqb_eq in E; contradiction.
Qed.

Lemma firstn_app_drop (A : Type) (x y : list A) :
  firstn (length (x ++ y) - length y) (x ++ y) = x.
Proof.
  rewrite length_app, Nat.add_sub.
  rewrite firstn_app, Nat.sub_diag, firstn_all; simpl.
  apply app_nil_r.
Qed.

Lemma skip_ws_split (s : str) :
  exists w, s = w ++ skip_ws s /\ Forall (fun c => is_space c = true) w.
Proof.
  induction s as [|c s [w [E F]]]; simpl.
  - exists []; auto.
  - destruct (is_space c) eqn:Ec.
    + exists (c :: w); split; [simpl; congruence | constructor; auto].
    + exists []; auto.
Qed.

Lemma skip_ws_head (s : str) (c : char) (r : str) :
  skip_ws s = c :: r -> is_space c = false.
Proof.
  induction s as [|a s IH]; simpl; [discriminate|].
  destruct (is_space a) eqn:Ea; [exact IH|].
  intros H; inversion H; subst; exact Ea.
Qed.

Lemma skip_ws_app (w r : str) :
  Forall (fun c => is_space c = true) w -> skip_ws (w ++ r) = skip_ws r.
Proof.
  induction 1 as [|c w Hc _ IH]; simpl; [reflexivity|].
  rewrite Hc; exact IH.
Qed.


(** ** The matcher on [WKT_EXPR] *)

Lemma WKT_EXPR_unfold (s : str) :
  Re.match_ WKT_EXPR s = Re.star is_space true s after_ws.
Proof.
  unfold Re.match_, WKT_EXPR.
  cbn [Re.run]. rewrite Nat.eqb_refl.
  reflexivity.
Qed.

Example WKT_EXPR_no_prefix :
  option_map (Re.groups []) (Re.match_ WKT_EXPR (u "POINT(1 2)"))
  = Some [[]; u "POINT(1 2)"].
Proof. reflexivity. Qed.

Example WKT_EXPR_with_prefix :
  option_map (Re.groups [])
             (Re.match_ WKT_EXPR (u "  CRS=EPSG:4326;POINT(1 2)"))
  = Some [u "EPSG:4326"; u "POINT(1 2)"].
Proof. reflexivity. Qed.

Example WKT_EXPR_final_line_feed :
  option_map (Re.groups []) (Re.match_ WKT_EXPR (u "POINT(1 2)" ++ [LF]))
  = Some [[]; u "POINT(1 2)"].
Proof. reflexivity. Qed.

Example WKT_EXPR_two_final_line_feeds :
  Re.match_ WKT_EXPR (u "POINT(1 2)" ++ [LF; LF]) = None.
Proof. reflexivity. Qed.

Example WKT_EXPR_prefix_without_semicolon :
  option_map (Re.groups []) (Re.match_ WKT_EXPR (u "CRS=EPSG:4326"))
  = Some [[]; u "CRS=EPSG:4326"].
Proof. reflexivity. Qed.

Section Star.

Variable p : char -> bool.
Variable k : str -> option Re.caps.

(** A star that succeeds stopped somewhere: it consumed characters of the
    class and the continuation accepted what was left. *)
Lemma star_sound (g : bool) (rest : str) (v : Re.caps) :
  Re.star p g rest k = Some v ->
  exists x y, rest = x ++ y /\ Forall (fun c => p c = true) x /\ k y = Some v.
Proof.
  induction rest as [|c rest IH]; simpl; intros H.
  - exists [], []; auto.
  - destruct (p c) eqn:Ec; [|exists [], (c :: rest); auto].
    assert (D : Re.star p g rest k = Some v \/ k (c :: rest) = Some v).
    { destruct g; unfold Re.orelse in H.
      - destruct (Re.star p true rest k); auto.
      - destruct (k (c :: rest)); auto. }
    destruct D as [D|D].
    + destruct (IH D) as (x & y & -> & F & K).
      exists (c :: x), y; auto.
    + exists [], (c :: rest); auto.
Qed.

(** The continuation rejects every stopping place: the star fails. *)
Lemma star_none (g : bool) (rest : str) :
  (forall x y, rest = x ++ y -> k y = None) ->
  Re.star p g rest k = None.
Proof.
  induction rest as [|c rest IH]; simpl; intros H.
  - apply (H [] []); reflexivity.
  - assert (E1 : k (c :: rest) = None) by (apply (H []); reflexivity).
    assert (E2 : Re.star p g rest k = None).
    { apply IH; intros x y ->. apply (H (c :: x)); reflexivity. }
    rewrite E1, E2; destruct (p c), g; reflexivity.
Qed.

(** A greedy star keeps a success found further on. *)
Lemma star_greedy_app (x z : str) (v : Re.caps) :
  Forall (fun c => p c = true) x ->
  Re.star p true z k = Some v ->
  Re.star p true (x ++ z) k = Some v.
Proof.
  induction 1 as [|c x Hc _ IH]; intros H; simpl; [exact H|].
  rewrite Hc, (IH H); reflexivity.
Qed.

(** A greedy star that finds nothing further on gives the character back. *)
Lemma star_greedy_back (c : char) (b : str) :
  (forall x y, b = x ++ y -> k y = None) ->
  Re.star p true (c :: b) k = k (c :: b).
Proof.
  intros H; simpl. rewrite (star_none true b H).
  destruct (p c); reflexivity.
Qed.

(** At a character outside the class, or at the end, the star is empty. *)
Lemma star_stop (g : bool) (rest : str) :
  match rest with c :: _ => p c = false | [] => True end ->
  Re.star p g rest k = k rest.
Proof. destruct rest as [|c rest]; simpl; [reflexivity | intros ->; reflexivity]. Qed.

End Star.

(** The end anchor holds at the end and before a final line feed only. *)
Lemma at_end_cases (e : str) : Re.at_end e = true <-> e = [] \/ e = [LF].
Proof.
  destruct e as [|c [|d e]]; simpl.
  - tauto.
  - rewrite N.eqb_eq. split; [intros ->; auto | intros [H|H]; congruence].
  - split; [discriminate | intros [H|H]; discriminate].
Qed.

Lemma at_end_dot (c : char) (r : str) :
  is_dot c = true -> Re.at_end (c :: r) = false.
Proof.
  unfold is_dot; destruct r; simpl; [|reflexivity].
  destruct (c =? LF)%N; [discriminate | reflexivity].
Qed.

(** The lazy body runs to the end of its line and captures it. *)
Lemma body_line (cs : Re.caps) (x e pre : str) :
  Forall (fun c => is_dot c = true) x ->
  Re.at_end e = true ->
  Re.star is_dot false (x ++ e) (body_k (pre ++ x ++ e) cs)
  = Some ((2, pre ++ x) :: cs).
Proof.
  intros F He; revert pre.
  induction F as [|c x Hc _ IH]; intros pre.
  - simpl app at 1.
    assert (K : body_k (pre ++ [] ++ e) cs e = Some ((2, pre ++ []) :: cs)).
    { unfold body_k; rewrite He. simpl app at 3.
      rewrite firstn_app_drop, app_nil_r; reflexivity. }
    apply at_end_cases in He as [-> | ->]; [exact K|].
    rewrite star_stop; [exact K | reflexivity].
  - simpl app at 1. simpl Re.star. rewrite Hc.
    unfold body_k at 1. rewrite (at_end_dot c (x ++ e) Hc).
    simpl Re.orelse.
    change (pre ++ c :: x ++ e) with (pre ++ [c] ++ x ++ e).
    rewrite (app_assoc pre [c]), IH, <- app_assoc; reflexivity.
Qed.

Lemma body_run_line (cs : Re.caps) (x e : str) :
  Forall (fun c => is_dot c = true) x ->
  Re.at_end e = true ->
  body_run (x ++ e) cs = Some ((2, x) :: cs).
Proof. intros F He; exact (body_line cs x e [] F He). Qed.

(** A body that matched lies on one line. *)
Lemma body_run_sound (r : str) (cs v : Re.caps) :
  body_run r cs = Some v ->
  exists x e, r = x ++ e /\ Forall (fun c => is_dot c = true) x
              /\ Re.at_end e = true.
Proof.
  intros H; apply star_sound in H as (x & e & -> & F & K).
  exists x, e; repeat split; auto.
  unfold body_k in K; destruct (Re.at_end e); [reflexivity | discriminate].
Qed.

(** *** Texts on one line *)

Definition on_line (r : str) : Prop :=
  exists x e, r = x ++ e /\ Forall (fun c => is_dot c = true) x
              /\ Re.at_end e = true.

Lemma on_line_tail (c : char) (r : str) : on_line (c :: r) -> on_line r.
Proof.
  intros (x & e & E & F & He). destruct x as [|a x].
  - simpl in E; subst e. apply at_end_cases in He as [He|He]; [discriminate|].
    inversion He; subst. exists [], []; auto.
  - inversion E; subst. inversion F; subst. exists x, e; auto.
Qed.

Lemma on_line_suffix (a b : str) : on_line (a ++ b) -> on_line b.
Proof.
  induction a as [|c a IH]; simpl; [auto|].
  intros H; apply IH; exact (on_line_tail _ _ H).
Qed.

Lemma one_line_iff (r : str) : one_line r = true <-> on_line r.
Proof.
  induction r as [|c r IH].
  - split; [intros _; exists [], []; auto | reflexivity].
  - destruct r as [|d r].
    + split; [intros _ | reflexivity].
      destruct (is_dot c) eqn:Ec.
      * exists [c], []; auto.
      * exists [], [c]; repeat split; auto. simpl.
        unfold is_dot in Ec; destruct (c =? LF)%N; [reflexivity | discriminate].
    + change (one_line (c :: d :: r))
        with (is_dot c && one_line (d :: r)).
      rewrite andb_true_iff, IH. split.
      * intros [Ec (x & e & E & F & He)].
        exists (c :: x), e; rewrite E; auto.
      * intros H. split; [|exact (on_line_tail _ _ H)].
        destruct H as (x & e & E & F & He). destruct x as [|a x].
        -- simpl in E; subst e; discriminate.
        -- inversion E; subst; inversion F; auto.
Qed.

(** *** The prefix *)

Lemma prefix_run_cases (r : str) :
  prefix_run r = None \/
  exists r1, r = u "CRS=" ++ r1 /\
             prefix_run r = Re.star is_dot true r1 (spec_k r1).
Proof.
  unfold prefix_run, lit_k.
  destruct r as [|c1 [|c2 [|c3 [|c4 r1]]]]; auto;
    destruct (c1 =? 67)%N eqn:E1; auto;
    destruct (c2 =? 82)%N eqn:E2; auto;
    destruct (c3 =? 83)%N eqn:E3; auto;
    destruct (c4 =? 61)%N eqn:E4; auto.
  apply N.eqb_eq in E1, E2, E3, E4; subst.
  right; exists r1; split; reflexivity.
Qed.

Lemma starts_with_app (p r : str) : starts_with p (p ++ r) = true.
Proof. induction p; simpl; [|rewrite N.eqb_refl]; auto. Qed.

Lemma spec_k_no_semi (r1 r : str) :
  existsb (N.eqb SEMI) r = false ->
  forall x y, r = x ++ y -> spec_k r1 y = None.
Proof.
  intros H x y ->. rewrite existsb_app in H.
  apply orb_false_iff in H as [_ H].
  destruct y as [|c y]; [reflexivity|]. cbn [existsb] in H.
  apply orb_false_iff in H as [H _].
  unfold spec_k. rewrite N.eqb_sym, H. reflexivity.
Qed.

Lemma prefix_run_none (r : str) :
  has_crs_prefix r = false -> prefix_run r = None.
Proof.
  intros H. destruct (prefix_run_cases r) as [E | (r1 & -> & E)]; [exact E|].
  rewrite E. unfold has_crs_prefix in H.
  rewrite starts_with_app in H. simpl andb in H.
  apply star_none. apply spec_k_no_semi with (r := r1). exact H.
Qed.

(** After the whitespace, a text without prefix is its own body. *)
Lemma after_ws_plain (x e : str) :
  Forall (fun c => is_dot c = true) x ->
  Re.at_end e = true ->
  has_crs_prefix (x ++ e) = false ->
  after_ws (x ++ e) = Some [(2, x)].
Proof.
  intros F He H. unfold after_ws.
  rewrite (prefix_run_none _ H), (body_run_line [] x e F He); reflexivity.
Qed.

(** After the whitespace, group 1 runs up to the last semicolon. *)
Lemma after_ws_prefixed (c b e : str) :
  Forall (fun a => is_dot a = true) c ->
  Forall (fun a => is_dot a = true) b ->
  existsb (N.eqb SEMI) (b ++ e) = false ->
  Re.at_end e = true ->
  after_ws (u "CRS=" ++ c ++ SEMI :: b ++ e) = Some [(2, b); (1, c)].
Proof.
  intros Fc Fb Hb He. unfold after_ws.
  assert (P : prefix_run (u "CRS=" ++ c ++ SEMI :: b ++ e)
              = Some [(2, b); (1, c)]).
  { change (prefix_run (u "CRS=" ++ c ++ SEMI :: b ++ e))
      with (Re.star is_dot true (c ++ SEMI :: b ++ e)
              (spec_k (c ++ SEMI :: b ++ e))).
    apply star_greedy_app; [exact Fc|].
    rewrite star_greedy_back
      by (apply spec_k_no_semi with (r := b ++ e); exact Hb).
    unfold spec_k. rewrite N.eqb_refl.
    rewrite (firstn_app_drop _ c (SEMI :: b ++ e)).
    apply body_run_line; assumption. }
  rewrite P; reflexivity.
Qed.

Lemma after_ws_sound (r : str) (v : Re.caps) :
  after_ws r = Some v -> on_line r.
Proof.
  unfold after_ws. intros H.
  destruct (prefix_run r) as [v'|] eqn:P.
  - destruct (prefix_run_cases r) as [E | (r1 & -> & E)]; [congruence|].
    rewrite E in P. apply star_sound in P as (c & y & -> & Fc & K).
    unfold spec_k in K. destruct y as [|s r3]; [discriminate|].
    destruct (s =? SEMI)%N eqn:Es; [|discriminate].
    apply N.eqb_eq in Es; subst s.
    apply body_run_sound in K as (x & e & -> & Fx & He).
    exists (u "CRS=" ++ c ++ SEMI :: x), e. repeat split; auto.
    + repeat rewrite <- app_assoc; reflexivity.
    + apply Forall_app; split; [repeat constructor|].
      apply Forall_app; split; [exact Fc | constructor; auto].
  - simpl in H. apply body_run_sound in H. exact H.
Qed.

(** *** The whole pattern *)

Lemma WKT_EXPR_after_ws (w r : str) (v : Re.caps) :
  Forall (fun c => is_space c = true) w ->
  match r with c :: _ => is_space c = false | [] => True end ->
  after_ws r = Some v ->
  Re.match_ WKT_EXPR (w ++ r) = Some v.
Proof.
  intros Fw Hr H. rewrite WKT_EXPR_unfold.
  apply star_greedy_app; [exact Fw|].
  rewrite star_stop; assumption.
Qed.

Lemma WKT_EXPR_sound (s : str) (v : Re.caps) :
  Re.match_ WKT_EXPR s = Some v -> on_line (skip_ws s).
Proof.
  rewrite WKT_EXPR_unfold. intros H.
  apply star_sound in H as (w & y & -> & Fw & K).
  rewrite (skip_ws_app w y Fw).
  destruct (skip_ws_split y) as (w' & E & _).
  apply on_line_suffix with (a := w'). rewrite <- E.
  exact (after_ws_sound _ _ K).
Qed.

Lemma WKT_EXPR_complete (s : str) :
  on_line (skip_ws s) -> exists v, Re.match_ WKT_EXPR s = Some v.
Proof.
  intros (x & e & E & F & He).
  destruct (skip_ws_split s) as (w & Es & Fw).
  assert (B : body_run (skip_ws s) [] = Some [(2, x)])
    by (rewrite E; apply body_run_line; assumption).
  assert (A : exists v, after_ws (skip_ws s) = Some v).
  { unfold after_ws. destruct (prefix_run (skip_ws s)) as [v|];
      [exists v | exists [(2, x)]]; simpl; auto. }
  destruct A as [v A]. exists v.
  rewrite Es at 1. apply WKT_EXPR_after_ws; auto.
  destruct (skip_ws s) as [|c r] eqn:Ek; [exact I|].
  exact (skip_ws_head s c r Ek).
Qed.

Lemma WKT_EXPR_fails (s : str) :
  one_line (skip_ws s) = false -> Re.match_ WKT_EXPR s = None.
Proof.
  intros H. destruct (Re.match_ WKT_EXPR s) as [v|] eqn:M; [|reflexivity].
  apply WKT_EXPR_sound, one_line_iff in M. congruence.
Qed.

Lemma chomp_line (x e : str) :
  Forall (fun c => is_dot c = true) x -> Re.at_end e = true ->
  chomp (x ++ e) = x.
Proof.
  intros F He. induction F as [|c x Hc F IH].
  - apply at_end_cases in He as [-> | ->]; reflexivity.
  - change (chomp ((c :: x) ++ e)) with (chomp (c :: x ++ e)).
    destruct (x ++ e) as [|d r] eqn:E.
    + simpl. rewrite Hc. apply app_eq_nil in E as [-> _]. reflexivity.
    + change (chomp (c :: d :: r)) with (c :: chomp (d :: r)).
      rewrite IH; reflexivity.
Qed.

Lemma chomp_plain (s : str) :
  Forall (fun c => is_dot c = true) s -> chomp s = s.
Proof.
  intros F. rewrite <- (app_nil_r s) at 1. apply chomp_line; auto.
Qed.

(** On a one-line text without prefix, group 1 takes no part and group 2 is
    the text between the leading whitespace and the final line feed. *)
Lemma WKT_EXPR_plain (s : str) :
  one_line (skip_ws s) = true ->
  has_crs_prefix (skip_ws s) = false ->
  Re.match_ WKT_EXPR s = Some [(2, chomp (skip_ws s))].
Proof.
  intros H1 H2. apply one_line_iff in H1 as (x & e & E & F & He).
  destruct (skip_ws_split s) as (w & Es & Fw).
  rewrite Es at 1. apply WKT_EXPR_after_ws; auto.
  - destruct (skip_ws s) as [|c r] eqn:Ek; [exact I|].
    exact (skip_ws_head s c r Ek).
  - rewrite E in *. rewrite (chomp_line x e F He).
    apply after_ws_plain; assumption.
Qed.

(** With a prefix, group 1 is everything up to the last semicolon. *)
Lemma WKT_EXPR_prefix (w c b : str) :
  Forall (fun a => is_space a = true) w ->
  Forall (fun a => is_dot a = true) c ->
  Forall (fun a => is_dot a = true) b ->
  existsb (N.eqb SEMI) b = false ->
  Re.match_ WKT_EXPR (w ++ u "CRS=" ++ c ++ SEMI :: b)
  = Some [(2, b); (1, c)].
Proof.
  intros Fw Fc Fb Hb. apply WKT_EXPR_after_ws; [exact Fw | reflexivity |].
  rewrite <- (app_nil_r b) at 1.
  apply after_ws_prefixed; auto. rewrite app_nil_r; exact Hb.
Qed.

(** ** The conversions *)

Section Conversions.

Context {L : GeoLib}.

Lemma declares_eqb (inp : WPSInput) (f : Format) :
  declares inp f ->
  str_eqb (mime_type (data_format inp)) (mime_type f) = true.
Proof. intros H; apply str_eqb_eq; exact H. Qed.

Lemma not_declares_eqb (inp : WPSInput) (f : Format) :
  ~ declares inp f ->
  str_eqb (mime_type (data_format inp)) (mime_type f) = false.
Proof. intros H; apply str_eqb_neq; exact H. Qed.

(** The WKT branch hands the text to [wkt_to_goeometry]. *)
Lemma input_to_geometry_wkt (inp : WPSInput) (wkt : str) :
  declares inp FORMATS_WKT -> data inp = PText wkt ->
  input_to_geometry inp = wkt_to_goeometry wkt.
Proof.
  intros H D. unfold input_to_geometry.
  rewrite (declares_eqb _ _ H), D; reflexivity.
Qed.

(** The OGR branches hand the parsed geometry to the [if geom:] block. *)
Lemma input_to_geometry_ogr (inp : WPSInput) (geom : OgrGeometry) :
  decoded_by_ogr inp geom ->
  input_to_geometry inp = Return (ogr_to_qgis geom).
Proof.
  intros (W & text & D & H). unfold input_to_geometry, ogr_parse.
  rewrite (not_declares_eqb _ _ W), D.
  destruct H as [(J & E) | (J & G & E)].
  - rewrite (declares_eqb _ _ J); simpl; rewrite E; reflexivity.
  - rewrite (not_declares_eqb _ _ J), (declares_eqb _ _ G); simpl.
    rewrite E; reflexivity.
Qed.

(** Once the pattern matched, [wkt_to_goeometry] returns: a referenced
    geometry for a geometry that is not null under a valid CRS, the bare
    geometry otherwise. *)
Lemma wkt_to_goeometry_matched (wkt : str) (m : Re.caps) :
  Re.match_ WKT_EXPR wkt = Some m ->
  wkt_to_goeometry wkt =
  Return (let g := fromWkt (nth 1 (Re.groups [] m) []) in
          let crs := crs_new (nth 0 (Re.groups [] m) []) in
          if negb (isNull g) && isValid crs
          then VReferencedGeometry g crs else VGeometry g).
Proof.
  intros M. unfold wkt_to_goeometry. rewrite M. cbv zeta.
  destruct (isNull _); simpl; [reflexivity|].
  destruct (isValid _); reflexivity.
Qed.

Lemma wkt_to_goeometry_valid (wkt : str) (v : value)
      (c : QgsCoordinateReferenceSystem) :
  wkt_to_goeometry wkt = Return v -> crs_of v = Some c -> isValid c = true.
Proof.
  unfold wkt_to_goeometry.
  destruct (Re.match_ WKT_EXPR wkt) as [m|]; [|discriminate].
  cbv zeta. destruct (negb _).
  - destruct (isValid _) eqn:V; intros H; inversion H; subst; simpl;
      intros E; inversion E; subst; auto.
  - intros H; inversion H; subst; discriminate.
Qed.

Lemma ogr_to_qgis_valid (geom : OgrGeometry)
      (c : QgsCoordinateReferenceSystem) :
  crs_of (ogr_to_qgis geom) = Some c -> isValid c = true.
Proof.
  unfold ogr_to_qgis. destruct (GetSpatialReference geom) as [srs|].
  - destruct (isValid _) eqn:V; simpl; intros E; inversion E; subst; auto.
  - discriminate.
Qed.

Lemma input_to_geometry_valid (inp : WPSInput) (v : value)
      (c : QgsCoordinateReferenceSystem) :
  input_to_geometry inp = Return v -> crs_of v = Some c -> isValid c = true.
Proof.
  unfold input_to_geometry.
  destruct (str_eqb _ _).
  - destruct (as_text (data inp)) as [text|e]; simpl; [|discriminate].
    apply wkt_to_goeometry_valid.
  - destruct (ogr_parse inp) as [[geom|]|e]; simpl; try discriminate.
    intros H; inversion H; subst. apply ogr_to_qgis_valid.
Qed.

(** [input_to_point] by cases on what [input_to_geometry] gives. *)
Lemma input_to_point_cases (inp : WPSInput) :
  input_to_point inp =
  match input_to_geometry inp with
  | Return (VReferencedGeometry g crs) =>
      Return (VReferencedPointXY (asPoint (centroid g)) crs)
  | Return v => Return v
  | Raise e => Raise e
  end.
Proof.
  unfold input_to_point.
  destruct (input_to_geometry inp) as [[]|]; reflexivity.
Qed.

(** A value without CRS passes through [input_to_point] as it is. *)
Lemma input_to_point_plain (inp : WPSInput) (g : QgsGeometry) :
  input_to_geometry inp = Return (VGeometry g) ->
  input_to_point inp = Return (VGeometry g).
Proof. intros H; rewrite input_to_point_cases, H; reflexivity. Qed.

(** [input_to_extent] on a sequence whose first four elements convert. *)
Lemma input_to_extent_seq (inp : WPSInput) (a b c d : item)
      (rest : list item) (x0 x1 x2 x3 : Float) :
  data inp = PSeq (a :: b :: c :: d :: rest) ->
  py_float a = Return x0 -> py_float b = Return x1 ->
  py_float c = Return x2 -> py_float d = Return x3 ->
  input_to_extent inp =
  Return (VReferencedRectangle (rect_new x0 x2 x1 x3) (crs_new (crs inp))).
Proof.
  intros D A B C E. unfold input_to_extent. rewrite D. simpl.
  rewrite A; simpl. rewrite C; simpl. rewrite B; simpl. rewrite E; simpl.
  reflexivity.
Qed.

(** The only exceptions of [input_to_extent] are those of indexing and of
    [float]. *)
Lemma input_to_extent_raises (inp : WPSInput) (e : exn) :
  input_to_extent inp = Raise e -> e = IndexError \/ e = ValueError.
Proof.
  assert (I : forall i e', index (data inp) i = Raise e' -> e' = IndexError).
  { intros i e'. unfold index.
    destruct (data inp) as [s|l]; destruct (nth_error _ i);
      intros H; inversion H; reflexivity. }
  assert (F : forall it e', py_float it = Raise e' -> e' = ValueError).
  { intros [s|x] e'; simpl; [|discriminate].
    destruct (float_of_str s); intros H; inversion H; reflexivity. }
  unfold input_to_extent.
  repeat match goal with
  | |- context [bind (index ?r ?i) _] =>
      let E := fresh "E" in
      destruct (index r i) as [?|?] eqn:E; simpl;
      [| intros H; inversion H; subst; left; exact (I _ _ E)]
  | |- context [bind (py_float ?x) _] =>
      let E := fresh "E" in
      destruct (py_float x) as [?|?] eqn:E; simpl;
      [| intros H; inversion H; subst; right; exact (F _ _ E)]
  end.
  discriminate.
Qed.

End Conversions.

(** The conversions on a few requests. *)

Example decode_prefixed_point :
  input_to_geometry (Toy.wkt_input (u "CRS=EPSG:4326;POINT(1 2)"))
  = Return (VReferencedGeometry (L := Toy.lib) (Toy.Point 1 2)
                                (Toy.Epsg 4326)).
Proof. reflexivity. Qed.

Example decode_point_of_prefixed_line :
  input_to_point (Toy.wkt_input (u "CRS=EPSG:3857;LINESTRING(0 0, 2 4)"))
  = Return (VReferencedPointXY (L := Toy.lib) (1, 2)%Z (Toy.Epsg 3857)).
Proof. reflexivity. Qed.

Example decode_empty_geojson :
  input_to_geometry (Toy.geojson_input (u "{}"))
  = Raise (InvalidParameterValue (u "Invalid geojson format")).
Proof. reflexivity. Qed.

Example decode_extent_short_payload :
  input_to_extent (Toy.bbox_input [Toy.num 1; Toy.num 3; Toy.num 5]
                                  (u "application/wkt") (u "EPSG:4326"))
  = Raise IndexError.
Proof. reflexivity. Qed.

Example decode_extent_of_text :
  input_to_extent (Toy.complex_input (u "1359") (u "application/wkt"))
  = Return (VReferencedRectangle (L := Toy.lib) (1, 5, 3, 9)%Z Toy.Invalid).
Proof. reflexivity. Qed.

(** * The claims *)

(** ** C1: a WKT body that builds no geometry *)

(** C1.  The claim: a WKT input whose body yields a null geometry makes
    [input_to_geometry] fail with [InvalidParameterValue] naming the wkt
    format.  The code: once the pattern matched, a null geometry is
    returned as it is; the [raise] after the [if m:] block is reached only
    when the pattern does not match. *)
Theorem wkt_null_geometry_is_returned {L : GeoLib}
        (inp : WPSInput) (wkt : str) (m : Re.caps) :
  declares inp FORMATS_WKT ->
  data inp = PText wkt ->
  Re.match_ WKT_EXPR wkt = Some m ->
  isNull (fromWkt (nth 1 (Re.groups [] m) [])) = true ->
  input_to_geometry inp
  = Return (VGeometry (fromWkt (nth 1 (Re.groups [] m) []))).
Proof.
  intros W D M N.
  rewrite (input_to_geometry_wkt inp wkt W D).
  rewrite (wkt_to_goeometry_matched wkt m M). cbv zeta.
  rewrite N. reflexivity.
Qed.

Lemma wkt_null_geometry_is_returned_witness :
  Toy.is_null (Toy.from_wkt (u "POINT(")) = true /\
  input_to_geometry (Toy.wkt_input (u "POINT("))
  = Return (VGeometry (L := Toy.lib) Toy.Null).
Proof.
  split; [reflexivity|].
  exact (wkt_null_geometry_is_returned
           (Toy.wkt_input (u "POINT(")) (u "POINT(") [(2, u "POINT(")]
           eq_refl eq_refl eq_refl eq_refl).
Defined.

(** ** C2: the point of an input *)

(** C2, as amended.  [input_to_point] decodes the input with
    [input_to_geometry]; a referenced geometry becomes the referenced point
    at its centroid, under the same CRS; any other decoded value is
    returned as it is, and an exception is passed on. *)
Theorem input_to_point_by_cases {L : GeoLib} (inp : WPSInput) :
  input_to_point inp =
  match input_to_geometry inp with
  | Return (VReferencedGeometry g crs) =>
      Return (VReferencedPointXY (asPoint (centroid g)) crs)
  | Return v => Return v
  | Raise e => Raise e
  end.
Proof. apply input_to_point_cases. Qed.

(** C2, as stated, fails on a line string without CRS: the result is the
    line string, not the point at its centroid. *)
Lemma input_to_point_keeps_plain_geometry :
  let inp := Toy.wkt_input (u "LINESTRING(0 0, 2 4)") in
  let g : @QgsGeometry Toy.lib := Toy.LineString [(0, 0); (2, 4)]%Z in
  input_to_geometry inp = Return (VGeometry g) /\
  asPoint (centroid g) = (1, 2)%Z /\
  input_to_point inp = Return (VGeometry g) /\
  input_to_point inp <> Return (VPointXY (asPoint (centroid g))).
Proof. cbv zeta. repeat split; try reflexivity. discriminate. Qed.

(** ** C3: the rectangle of an extent *)

(** C3.  On a payload of four numeric values (xmin, xmax, ymin, ymax),
    [input_to_extent] returns the rectangle built from
    (xmin, ymin, xmax, ymax), paired with the CRS built from the declared
    CRS string, whatever its validity. *)
Theorem input_to_extent_reorders {L : GeoLib} (inp : WPSInput)
        (a b c d : item) (xmin xmax ymin ymax : Float) :
  data inp = PSeq [a; b; c; d] ->
  py_float a = Return xmin -> py_float b = Return xmax ->
  py_float c = Return ymin -> py_float d = Return ymax ->
  input_to_extent inp
  = Return (VReferencedRectangle (rect_new xmin ymin xmax ymax)
                                 (crs_new (crs inp))).
Proof. apply input_to_extent_seq. Qed.

Lemma input_to_extent_reorders_witness :
  let inp := Toy.bbox_input [Toy.num 1; Toy.num 3; Toy.num 5; Toy.num 9]
                            (u "application/wkt") (u "NOT_A_CRS") in
  Toy.is_valid (Toy.crs_of_string (crs inp)) = false /\
  input_to_extent inp
  = Return (VReferencedRectangle (L := Toy.lib) (1, 5, 3, 9)%Z Toy.Invalid).
Proof.
  cbv zeta. split; [reflexivity|].
  apply (input_to_extent_reorders
           (Toy.bbox_input [Toy.num 1; Toy.num 3; Toy.num 5; Toy.num 9]
                           (u "application/wkt") (u "NOT_A_CRS"))
           (Toy.num 1) (Toy.num 3) (Toy.num 5) (Toy.num 9));
    reflexivity.
Defined.

(** ** C4: a CRS is attached only when valid *)

(** C4.  Given that the CRS built from the empty string is invalid (the
    code builds it when no specifier was captured): a value returned by
    [input_to_geometry] or [input_to_point] carries only a valid CRS; a WKT
    input whose specifier is absent, empty or invalid, and an OGR-decoded
    input whose spatial reference is absent or invalid, give the geometry
    without CRS, and no exception. *)
Theorem crs_attached_only_if_valid {L : GeoLib} :
  isValid (crs_new []) = false ->
  (forall inp v c,
      input_to_geometry inp = Return v \/ input_to_point inp = Return v ->
      crs_of v = Some c -> isValid c = true)
  /\ (forall inp wkt m,
      declares inp FORMATS_WKT -> data inp = PText wkt ->
      Re.match_ WKT_EXPR wkt = Some m ->
      Re.get 1 m = None \/ Re.get 1 m = Some [] \/
      (exists s, Re.get 1 m = Some s /\ isValid (crs_new s) = false) ->
      let g := fromWkt (nth 1 (Re.groups [] m) []) in
      input_to_geometry inp = Return (VGeometry g) /\
      input_to_point inp = Return (VGeometry g))
  /\ (forall inp geom,
      decoded_by_ogr inp geom ->
      GetSpatialReference geom = None \/
      (exists srs, GetSpatialReference geom = Some srs /\
                   isValid (crs_fromWkt (srs_ExportToWkt srs)) = false) ->
      let g := fromWkt (ExportToWkt geom) in
      input_to_geometry inp = Return (VGeometry g) /\
      input_to_point inp = Return (VGeometry g)).
Proof.
  intros Hempty. split; [|split].
  - intros inp v c [H|H] E.
    + exact (input_to_geometry_valid inp v c H E).
    + rewrite input_to_point_cases in H.
      destruct (input_to_geometry inp) as [w|e] eqn:G; [|discriminate].
      destruct w; inversion H; subst;
        exact (input_to_geometry_valid inp _ c G E).
  - intros inp wkt m W D M C g.
    assert (G : input_to_geometry inp = Return (VGeometry g)).
    { rewrite (input_to_geometry_wkt inp wkt W D).
      rewrite (wkt_to_goeometry_matched wkt m M). cbv zeta. fold g.
      replace (isValid (crs_new (nth 0 (Re.groups [] m) []))) with false.
      - rewrite andb_false_r; reflexivity.
      - unfold Re.groups; simpl.
        destruct C as [-> | [-> | (s & -> & V)]]; auto. }
    split; [exact G | exact (input_to_point_plain inp g G)].
  - intros inp geom O C g.
    assert (G : input_to_geometry inp = Return (VGeometry g)).
    { rewrite (input_to_geometry_ogr inp geom O). unfold ogr_to_qgis.
      destruct C as [-> | (srs & -> & ->)]; reflexivity. }
    split; [exact G | exact (input_to_point_plain inp g G)].
Qed.

Lemma crs_attached_only_if_valid_witness :
  Toy.is_valid (Toy.crs_of_string []) = false /\
  input_to_geometry (Toy.wkt_input (u "CRS=NOT_A_CRS;POINT(1 2)"))
  = Return (VGeometry (L := Toy.lib) (Toy.Point 1 2)).
Proof.
  split; [reflexivity|].
  destruct (crs_attached_only_if_valid (L := Toy.lib) eq_refl) as (_ & H & _).
  refine (proj1 (H (Toy.wkt_input (u "CRS=NOT_A_CRS;POINT(1 2)"))
                   (u "CRS=NOT_A_CRS;POINT(1 2)")
                   [(2, u "POINT(1 2)"); (1, u "NOT_A_CRS")]
                   eq_refl eq_refl eq_refl _)).
  right; right. exists (u "NOT_A_CRS"). split; reflexivity.
Defined.

(** ** C5: the strings the pattern matches *)

Lemma no_line_feed_one_line (s : str) :
  Forall (fun c => c <> LF) s -> one_line (skip_ws s) = true.
Proof.
  intros F. apply one_line_iff.
  destruct (skip_ws_split s) as (w & E & _).
  apply on_line_suffix with (a := w). rewrite <- E.
  exists s, []. rewrite app_nil_r. repeat split; auto.
  eapply Forall_impl; [|exact F]. intros c Hc. unfold is_dot.
  destruct (c =? LF)%N eqn:Ec; [apply N.eqb_eq in Ec; contradiction | auto].
Qed.

(** C5, as amended.  The pattern matches exactly the strings that, after
    their leading whitespace, hold no line feed except possibly as their
    last character; so it matches every string without line feed.  On any
    other string the match fails and [wkt_to_goeometry] raises
    [InvalidParameterValue]. *)
Theorem WKT_EXPR_matches_one_line {L : GeoLib} :
  (forall s, (exists m, Re.match_ WKT_EXPR s = Some m)
             <-> one_line (skip_ws s) = true)
  /\ (forall s, Forall (fun c => c <> LF) s ->
                exists m, Re.match_ WKT_EXPR s = Some m)
  /\ (forall s, one_line (skip_ws s) = false ->
                wkt_to_goeometry s
                = Raise (InvalidParameterValue (u "Invalid wkt format"))).
Proof.
  assert (A : forall s, (exists m, Re.match_ WKT_EXPR s = Some m)
                        <-> one_line (skip_ws s) = true).
  { intros s. split.
    - intros [m M]. apply one_line_iff. exact (WKT_EXPR_sound s m M).
    - intros H. apply WKT_EXPR_complete, one_line_iff, H. }
  split; [exact A | split].
  - intros s F. apply A, no_line_feed_one_line, F.
  - intros s H. unfold wkt_to_goeometry.
    rewrite (WKT_EXPR_fails s H). reflexivity.
Qed.

(** C5, as stated, fails on a text with a line feed inside: the pattern
    does not match and the error branch is taken. *)
Lemma WKT_EXPR_rejects_inner_line_feed :
  let wkt := u "POINT(1" ++ [LF] ++ u "2)" in
  Re.match_ WKT_EXPR wkt = None /\
  wkt_to_goeometry (L := Toy.lib) wkt
  = Raise (InvalidParameterValue (u "Invalid wkt format")).
Proof. cbv zeta. split; reflexivity. Qed.

(** ** C6: the CRS specifier *)

(** C6, as amended.  The specifier is matched greedily: on an input
    [CRS=A;B;body] on one line, whose body holds no semicolon, the captured
    specifier is [A;B], up to the last semicolon, and the body is [body];
    whitespace before the prefix is skipped. *)
Theorem crs_specifier_runs_to_last_semicolon (w A B body : str) :
  Forall (fun a => is_space a = true) w ->
  Forall (fun a => is_dot a = true) A ->
  Forall (fun a => is_dot a = true) B ->
  Forall (fun a => is_dot a = true) body ->
  existsb (N.eqb SEMI) body = false ->
  option_map (Re.groups [])
    (Re.match_ WKT_EXPR (w ++ u "CRS=" ++ A ++ SEMI :: B ++ SEMI :: body))
  = Some [A ++ SEMI :: B; body].
Proof.
  intros Fw FA FB Fb Hb.
  replace (A ++ SEMI :: B ++ SEMI :: body)
    with ((A ++ SEMI :: B) ++ SEMI :: body)
    by (rewrite <- app_assoc; reflexivity).
  rewrite WKT_EXPR_prefix; auto.
  apply Forall_app; split; [exact FA | constructor; auto].
Qed.

Lemma crs_specifier_runs_to_last_semicolon_witness :
  option_map (Re.groups [])
    (Re.match_ WKT_EXPR (u " CRS=EPSG:4326;x;POINT(1 2)"))
  = Some [u "EPSG:4326;x"; u "POINT(1 2)"].
Proof.
  apply (crs_specifier_runs_to_last_semicolon
           (u " ") (u "EPSG:4326") (u "x") (u "POINT(1 2)"));
    try reflexivity; repeat constructor.
Defined.

(** C6, as stated, fails on [CRS=A;B;POINT(1 2)]: the captured specifier is
    [A;B] and holds a semicolon. *)
Lemma crs_specifier_holds_semicolon :
  option_map (Re.groups []) (Re.match_ WKT_EXPR (u "CRS=A;B;POINT(1 2)"))
  = Some [u "A;B"; u "POINT(1 2)"] /\
  In SEMI (u "A;B") /\
  option_map (Re.groups []) (Re.match_ WKT_EXPR (u "CRS=A;B;POINT(1 2)"))
  <> Some [u "A"; u "B;POINT(1 2)"].
Proof.
  split; [reflexivity | split; [right; left; reflexivity | discriminate]].
Qed.

(** ** C7: a format without decoding path *)

(** C7.  The claim: an input whose declared MIME type is none of WKT,
    GeoJSON and GML makes [input_to_geometry] fail with [NoApplicableCode],
    not [InvalidParameterValue], under a message that names the
    unsupported format.  The code: [NoApplicableCode] is raised, and its
    message is built from [str(data_format)], the format object, where the
    dispatch just above reads [data_format.mime_type]; what the message
    names is left to how a [Format] object prints. *)
Theorem unsupported_format_raises {L : GeoLib} (inp : WPSInput) :
  ~ declares inp FORMATS_WKT ->
  ~ declares inp FORMATS_GEOJSON ->
  ~ declares inp FORMATS_GML ->
  input_to_geometry inp
  = Raise (NoApplicableCode
             (u "Unsupported data format: " ++ format_str (data_format inp)))
  /\ forall msg, input_to_geometry inp <> Raise (InvalidParameterValue msg).
Proof.
  intros W J G.
  assert (E : input_to_geometry inp
              = Raise (NoApplicableCode
                         (u "Unsupported data format: "
                            ++ format_str (data_format inp)))).
  { unfold input_to_geometry, ogr_parse.
    rewrite (not_declares_eqb _ _ W), (not_declares_eqb _ _ J),
            (not_declares_eqb _ _ G). reflexivity. }
  split; [exact E | intros msg; rewrite E; discriminate].
Qed.

(** With [Format] objects printed by [object.__repr__], the message holds
    the address of the object and not the MIME type. *)
Lemma unsupported_format_raises_witness :
  let f := {| Repr.mime := u "application/unknown";
              Repr.address := 139823937330768 |} in
  let msg := u "Unsupported data format: "
             ++ u "<pyqgiswps.inout.formats.Format object at 0x7f2b4c1d9e50>" in
  input_to_geometry (Repr.complex_input (u "POINT(1 2)") f)
  = Raise (NoApplicableCode msg)
  /\ contains (u "application/unknown") msg = false.
Proof.
  cbv zeta. split; [|reflexivity].
  refine (proj1 (unsupported_format_raises
                   (Repr.complex_input (u "POINT(1 2)")
                      {| Repr.mime := u "application/unknown";
                         Repr.address := 139823937330768 |}) _ _ _));
    intros H; vm_compute in H; discriminate H.
Defined.

(** ** C8: WKT without prefix *)

(** C8, as amended.  Given that the CRS built from the empty string is
    invalid (the code builds it from the empty capture): for a WKT text
    without CRS prefix that lies on one line, [input_to_geometry] returns
    the geometry without CRS that [fromWkt] builds from the text between
    its leading whitespace and its final line feed; for a text that has
    neither, that is the geometry denoted by the input, and both have the
    same WKT export. *)
Theorem wkt_without_prefix_decodes {L : GeoLib} (inp : WPSInput) (wkt : str) :
  isValid (crs_new []) = false ->
  declares inp FORMATS_WKT ->
  data inp = PText wkt ->
  one_line (skip_ws wkt) = true ->
  has_crs_prefix (skip_ws wkt) = false ->
  input_to_geometry inp = Return (VGeometry (fromWkt (chomp (skip_ws wkt))))
  /\ (Forall (fun c => is_dot c = true) wkt -> skip_ws wkt = wkt ->
      exists g, input_to_geometry inp = Return (VGeometry g)
                /\ g = fromWkt wkt /\ asWkt g = asWkt (fromWkt wkt)).
Proof.
  intros Hempty W D O P.
  assert (G : input_to_geometry inp
              = Return (VGeometry (fromWkt (chomp (skip_ws wkt))))).
  { rewrite (input_to_geometry_wkt inp wkt W D).
    rewrite (wkt_to_goeometry_matched wkt _ (WKT_EXPR_plain wkt O P)).
    cbv zeta. unfold Re.groups; simpl.
    rewrite Hempty, andb_false_r. reflexivity. }
  split; [exact G|].
  intros F K. exists (fromWkt wkt). rewrite G, K, (chomp_plain wkt F). auto.
Qed.

Lemma wkt_without_prefix_decodes_witness :
  input_to_geometry (Toy.wkt_input (u "POINT(10 20)"))
  = Return (VGeometry (L := Toy.lib) (Toy.Point 10 20)).
Proof.
  exact (proj1 (wkt_without_prefix_decodes (L := Toy.lib)
                  (Toy.wkt_input (u "POINT(10 20)")) (u "POINT(10 20)")
                  eq_refl eq_refl eq_refl eq_refl eq_refl)).
Defined.

(** C8, as stated, fails on a valid WKT text written on two lines: it has
    no CRS prefix and denotes a line string, and [input_to_geometry]
    raises. *)
Lemma wkt_on_two_lines_is_rejected :
  let wkt := u "LINESTRING(0 0," ++ [LF] ++ u "2 4)" in
  Toy.from_wkt wkt = Toy.LineString [(0, 0); (2, 4)]%Z /\
  Toy.is_null (Toy.from_wkt wkt) = false /\
  has_crs_prefix wkt = false /\
  input_to_geometry (Toy.wkt_input wkt)
  = Raise (InvalidParameterValue (u "Invalid wkt format")).
Proof. cbv zeta. repeat split; reflexivity. Qed.

(** ** C9: GeoJSON, then WKT again *)



(** *** The instance reads its own export back *)























(** ** C10: what the extent conversion looks at *)

(** The result of [input_to_extent] is a function of the first four
    elements of the payload and of the declared CRS string. *)
Lemma input_to_extent_depends_on {L : GeoLib} (i1 i2 : WPSInput) :
  index (data i1) 0 = index (data i2) 0 ->
  index (data i1) 1 = index (data i2) 1 ->
  index (data i1) 2 = index (data i2) 2 ->
  index (data i1) 3 = index (data i2) 3 ->
  crs i1 = crs i2 ->
  input_to_extent i1 = input_to_extent i2.
Proof.
  intros E0 E1 E2 E3 C. unfold input_to_extent.
  rewrite E0, E1, E2, E3, C. reflexivity.
Qed.

(** C10.  For an input whose payload has four first elements that convert
    to numbers, [input_to_extent] returns the referenced rectangle built
    from them.  On every input its result is determined by these four
    elements and the declared CRS string alone: neither the declared
    format nor any further element of the payload is looked at; and it
    never raises [InvalidParameterValue] or [NoApplicableCode]. *)
Theorem input_to_extent_reads_four_numbers {L : GeoLib} (inp : WPSInput)
        (a b c d : item) (x0 x1 x2 x3 : Float) :
  index (data inp) 0 = Return a -> index (data inp) 1 = Return b ->
  index (data inp) 2 = Return c -> index (data inp) 3 = Return d ->
  py_float a = Return x0 -> py_float b = Return x1 ->
  py_float c = Return x2 -> py_float d = Return x3 ->
  input_to_extent inp
  = Return (VReferencedRectangle (rect_new x0 x2 x1 x3) (crs_new (crs inp)))
  /\ (forall (i : WPSInput) (f : Format),
        input_to_extent (with_format f i) = input_to_extent i)
  /\ (forall (i : WPSInput) (a b c d : item) (rest rest' : list item)
             (f : Format),
        data i = PSeq (a :: b :: c :: d :: rest) ->
        input_to_extent i
        = input_to_extent {| data := PSeq (a :: b :: c :: d :: rest');
                             data_format := f; crs := crs i |})
  /\ (forall (i : WPSInput) (msg : str),
        input_to_extent i <> Raise (InvalidParameterValue msg)
        /\ input_to_extent i <> Raise (NoApplicableCode msg)).
Proof.
  intros I0 I1 I2 I3 A B C E. split; [|split; [|split]].
  - unfold input_to_extent. rewrite I0, I2, I1, I3; simpl.
    rewrite A; simpl. rewrite C; simpl. rewrite B; simpl. rewrite E; simpl.
    reflexivity.
  - reflexivity.
  - intros i a' b' c' d' rest rest' f D.
    apply input_to_extent_depends_on; simpl; try rewrite D; reflexivity.
  - intros i msg. split; intros H;
      destruct (input_to_extent_raises i _ H); discriminate.
Qed.

Lemma input_to_extent_reads_four_numbers_witness :
  let inp := Toy.bbox_input
               [IStr (u "1"); IStr (u " 3"); Toy.num 5; Toy.num 9;
                IStr (u "ignored")]
               (u "application/unknown") (u "EPSG:4326") in
  input_to_extent inp
  = Return (VReferencedRectangle (L := Toy.lib) (1, 5, 3, 9)%Z
                                 (Toy.Epsg 4326)).
Proof.
  cbv zeta.
  refine (proj1 (input_to_extent_reads_four_numbers
           (Toy.bbox_input
              [IStr (u "1"); IStr (u " 3"); Toy.num 5; Toy.num 9;
               IStr (u "ignored")]
              (u "application/unknown") (u "EPSG:4326"))
           (IStr (u "1")) (IStr (u " 3")) (Toy.num 5) (Toy.num 9)
           1%Z 3%Z 5%Z 9%Z
           eq_refl eq_refl eq_refl eq_refl
           eq_refl eq_refl eq_refl eq_refl)).
Defined.

(** * Further properties *)

(** ** The pattern as a splitter *)

Lemma cut_last_semi_some (s a b : str) :
  cut_last_semi s = Some (a, b) ->
  s = a ++ SEMI :: b /\ existsb (N.eqb SEMI) b = false.
Proof.
  revert a b; induction s as [|c s IH]; intros a b; simpl; [discriminate|].
  destruct (cut_last_semi s) as [[a' b']|] eqn:E.
  - intros H; inversion H; subst. destruct (IH a' b eq_refl) as [-> Hb].
    split; [reflexivity | exact Hb].
  - destruct (c =? SEMI)%N eqn:Ec; [|discriminate].
    intros H; inversion H; subst. apply N.eqb_eq in Ec; subst c.
    split; [reflexivity|].
    clear IH H. induction b as [|d b IHb]; [reflexivity|].
    simpl in E. destruct (cut_last_semi b) as [[? ?]|]; [discriminate|].
    destruct (d =? SEMI)%N eqn:Ed; [discriminate|].
    cbn [existsb]. rewrite N.eqb_sym, Ed. simpl. apply IHb; reflexivity.
Qed.

Lemma cut_last_semi_none (s : str) :
  cut_last_semi s = None -> existsb (N.eqb SEMI) s = false.
Proof.
  induction s as [|c s IH]; cbn [cut_last_semi existsb]; [reflexivity|].
  destruct (cut_last_semi s) as [[? ?]|]; [discriminate|].
  destruct (c =? SEMI)%N eqn:Ec; [discriminate|].
  intros _. rewrite N.eqb_sym, Ec. simpl. apply IH; reflexivity.
Qed.

Lemma starts_with_split (p x : str) :
  starts_with p x = true -> x = p ++ skipn (length p) x.
Proof.
  revert x; induction p as [|a p IH]; intros [|b x]; simpl;
    try reflexivity; try discriminate.
  intros H. apply andb_true_iff in H as [E H]. apply N.eqb_eq in E; subst b.
  f_equal. apply IH, H.
Qed.

(** A prefix without line feed that a text lacks is still lacking when a
    line feed is put at its end. *)
Lemma starts_with_end (p x e : str) :
  Forall (fun c => is_dot c = true) p ->
  Re.at_end e = true ->
  starts_with p x = false -> starts_with p (x ++ e) = false.
Proof.
  intros Fp He. revert x.
  induction Fp as [|a p Ha _ IH]; intros x; simpl; [discriminate|].
  destruct x as [|b x]; simpl.
  - intros _. apply at_end_cases in He as [-> | ->]; [reflexivity|].
    simpl. unfold is_dot in Ha.
    destruct (a =? LF)%N; [discriminate | reflexivity].
  - destruct (a =? b)%N; simpl; [apply IH | reflexivity].
Qed.

Lemma existsb_semi_end (x e : str) :
  Re.at_end e = true ->
  existsb (N.eqb SEMI) (x ++ e) = existsb (N.eqb SEMI) x.
Proof.
  intros He. rewrite existsb_app.
  apply at_end_cases in He as [-> | ->]; simpl; apply orb_false_r.
Qed.

(** A text on one line always gives a match after the whitespace. *)
Lemma after_ws_complete (r : str) :
  on_line r -> exists v, after_ws r = Some v.
Proof.
  intros (x & e & -> & F & He). unfold after_ws.
  rewrite (body_run_line [] x e F He).
  destruct (prefix_run (x ++ e)) as [v|]; [exists v | exists [(2, x)]];
    reflexivity.
Qed.

Lemma after_ws_none_app (y z : str) :
  after_ws z = None -> after_ws (y ++ z) = None.
Proof.
  intros H. destruct (after_ws (y ++ z)) as [v|] eqn:E; [|reflexivity].
  apply after_ws_sound, on_line_suffix, after_ws_complete in E as [v' E].
  congruence.
Qed.

(** The greedy whitespace gives back nothing that matters: the match is
    decided after all the leading whitespace. *)
Lemma star_space_after_ws (w z : str) :
  Forall (fun c => is_space c = true) w ->
  match z with c :: _ => is_space c = false | [] => True end ->
  Re.star is_space true (w ++ z) after_ws = after_ws z.
Proof.
  intros Fw Hz. induction Fw as [|c w Hc _ IH]; simpl app.
  - apply star_stop; exact Hz.
  - simpl. rewrite Hc, IH.
    destruct (after_ws z) as [v|] eqn:E; [reflexivity|].
    simpl. exact (after_ws_none_app (c :: w) z E).
Qed.

Lemma WKT_EXPR_skip_ws (s : str) :
  Re.match_ WKT_EXPR s = after_ws (skip_ws s).
Proof.
  rewrite WKT_EXPR_unfold.
  destruct (skip_ws_split s) as (w & E & Fw).
  rewrite E at 1. apply star_space_after_ws; [exact Fw|].
  destruct (skip_ws s) as [|c r] eqn:Ek; [exact I|].
  exact (skip_ws_head s c r Ek).
Qed.

(** After the whitespace, on a line [x] closed by [e]. *)
Lemma after_ws_split (x e : str) :
  Forall (fun c => is_dot c = true) x ->
  Re.at_end e = true ->
  after_ws (x ++ e) =
  match (if starts_with (u "CRS=") x
         then cut_last_semi (skipn 4 x) else None) with
  | Some (c, b) => Some [(2, b); (1, c)]
  | None => Some [(2, x)]
  end.
Proof.
  intros F He.
  destruct (starts_with (u "CRS=") x) eqn:S.
  - apply starts_with_split in S. change (length (u "CRS=")) with 4 in S.
    remember (skipn 4 x) as r1 eqn:R. clear R. subst x.
    destruct (cut_last_semi r1) as [[c b]|] eqn:C.
    + apply cut_last_semi_some in C as [-> Hb].
      apply Forall_app in F as [_ F]. apply Forall_app in F as [Fc Fb].
      inversion Fb; subst.
      replace ((u "CRS=" ++ c ++ SEMI :: b) ++ e)
        with (u "CRS=" ++ c ++ SEMI :: b ++ e)
        by (repeat rewrite <- app_assoc; reflexivity).
      apply after_ws_prefixed; auto.
      rewrite existsb_semi_end; assumption.
    + apply cut_last_semi_none in C.
      apply after_ws_plain; auto. unfold has_crs_prefix.
      rewrite existsb_semi_end by exact He.
      apply andb_false_intro2. rewrite existsb_app.
      apply orb_false_intro; [reflexivity | exact C].
  - apply after_ws_plain; auto. unfold has_crs_prefix.
    rewrite (starts_with_end (u "CRS=") x e); auto.
    repeat constructor.
Qed.

Lemma WKT_EXPR_split (s : str) :
  option_map (Re.groups []) (Re.match_ WKT_EXPR s)
  = option_map (fun cb => [fst cb; snd cb]) (split_wkt s).
Proof.
  rewrite WKT_EXPR_skip_ws. unfold split_wkt.
  destruct (one_line (skip_ws s)) eqn:O.
  - apply one_line_iff in O as (x & e & E & F & He).
    rewrite E, (chomp_line x e F He), (after_ws_split x e F He).
    destruct (if starts_with (u "CRS=") x
              then cut_last_semi (skipn 4 x) else None) as [[c b]|];
      reflexivity.
  - destruct (after_ws (skip_ws s)) as [v|] eqn:A; [|reflexivity].
    apply after_ws_sound, one_line_iff in A. congruence.
Qed.

(** X1.  What [WKT_EXPR.match(s).groups('')] is, for every text [s]: the
    match fails unless [s], after its leading whitespace, holds no line
    feed except as its last character; when it succeeds, the text without
    leading whitespace and final line feed is cut at its last semicolon
    into specifier and body if it opens with [CRS=] and holds a semicolon,
    and is the body, under an empty specifier, otherwise. *)
Theorem WKT_EXPR_groups_are_split (s : str) :
  option_map (Re.groups []) (Re.match_ WKT_EXPR s)
  = option_map (fun cb => [fst cb; snd cb]) (split_wkt s).
Proof. apply WKT_EXPR_split. Qed.

Example split_wkt_prefixed :
  split_wkt (u "  CRS=EPSG:4326;POINT(1 2)" ++ [LF])
  = Some (u "EPSG:4326", u "POINT(1 2)").
Proof. reflexivity. Qed.

Example split_wkt_trailing_space :
  split_wkt (u "POINT(1 2)  ") = Some ([], u "POINT(1 2)  ").
Proof. reflexivity. Qed.

(** ** What [wkt_to_goeometry] does not see *)

Lemma WKT_EXPR_leading_space (w s : str) :
  Forall (fun c => is_space c = true) w ->
  Re.match_ WKT_EXPR (w ++ s) = Re.match_ WKT_EXPR s.
Proof.
  intros Fw. rewrite !WKT_EXPR_skip_ws, (skip_ws_app w s Fw). reflexivity.
Qed.

Lemma after_ws_final_line_feed (r : str) :
  Forall (fun c => is_dot c = true) r ->
  after_ws (r ++ [LF]) = after_ws r.
Proof.
  intros F. rewrite (after_ws_split r [LF] F eq_refl).
  rewrite <- (app_nil_r r) at 3.
  rewrite (after_ws_split r [] F eq_refl). reflexivity.
Qed.

Lemma WKT_EXPR_final_line_feed_dropped (s : str) :
  Forall (fun c => is_dot c = true) s ->
  Re.match_ WKT_EXPR (s ++ [LF]) = Re.match_ WKT_EXPR s.
Proof.
  intros F. rewrite !WKT_EXPR_skip_ws.
  destruct (skip_ws_split s) as (w & E & Fw).
  destruct (skip_ws s) as [|c r] eqn:K.
  - rewrite app_nil_r in E. subst w.
    rewrite (skip_ws_app s [LF] Fw). reflexivity.
  - assert (Fr : Forall (fun a => is_dot a = true) (c :: r)).
    { rewrite E in F. apply Forall_app in F as [_ F]. exact F. }
    rewrite E at 1. rewrite <- app_assoc, (skip_ws_app w _ Fw).
    change ((c :: r) ++ [LF]) with (c :: r ++ [LF]).
    cbn [skip_ws]. rewrite (skip_ws_head s c r K).
    exact (after_ws_final_line_feed (c :: r) Fr).
Qed.

(** X2.  [wkt_to_goeometry] gives the same result, value or exception,
    when whitespace is put before a text, and when one line feed is put
    after a text that holds none. *)
Theorem wkt_to_goeometry_ignores_margins {L : GeoLib} (w s : str) :
  Forall (fun c => is_space c = true) w ->
  Forall (fun c => is_dot c = true) s ->
  wkt_to_goeometry (w ++ s) = wkt_to_goeometry s /\
  wkt_to_goeometry (s ++ [LF]) = wkt_to_goeometry s /\
  wkt_to_goeometry (w ++ s ++ [LF]) = wkt_to_goeometry s.
Proof.
  intros Fw Fs. unfold wkt_to_goeometry.
  rewrite !(WKT_EXPR_leading_space w _ Fw).
  rewrite (WKT_EXPR_final_line_feed_dropped s Fs). auto.
Qed.

Lemma wkt_to_goeometry_ignores_margins_witness :
  wkt_to_goeometry (L := Toy.lib)
    ([LF] ++ u "  " ++ u "CRS=EPSG:4326;POINT(1 2)" ++ [LF])
  = wkt_to_goeometry (u "CRS=EPSG:4326;POINT(1 2)").
Proof.
  refine (proj2 (proj2 (wkt_to_goeometry_ignores_margins (L := Toy.lib)
           ([LF] ++ u "  ") (u "CRS=EPSG:4326;POINT(1 2)") _ _)));
    repeat constructor.
Defined.

(** ** The WKT path with a valid prefix *)

(** X3.  A WKT input [CRS=c;body] on one line, after optional whitespace,
    whose body holds no semicolon and builds a geometry that is not null,
    and whose specifier [c] builds a valid CRS, decodes to that geometry
    referenced by that CRS; as a point, to its centroid under that CRS. *)
Theorem wkt_with_valid_prefix_is_referenced {L : GeoLib}
        (inp : WPSInput) (w c body : str) :
  declares inp FORMATS_WKT ->
  data inp = PText (w ++ u "CRS=" ++ c ++ SEMI :: body) ->
  Forall (fun a => is_space a = true) w ->
  Forall (fun a => is_dot a = true) c ->
  Forall (fun a => is_dot a = true) body ->
  existsb (N.eqb SEMI) body = false ->
  isNull (fromWkt body) = false ->
  isValid (crs_new c) = true ->
  input_to_geometry inp
  = Return (VReferencedGeometry (fromWkt body) (crs_new c)) /\
  input_to_point inp
  = Return (VReferencedPointXY (asPoint (centroid (fromWkt body)))
                               (crs_new c)).
Proof.
  intros W D Fw Fc Fb Hb N V.
  assert (G : input_to_geometry inp
              = Return (VReferencedGeometry (fromWkt body) (crs_new c))).
  { rewrite (input_to_geometry_wkt inp _ W D).
    rewrite (wkt_to_goeometry_matched _ _ (WKT_EXPR_prefix w c body Fw Fc Fb Hb)).
    cbv zeta. unfold Re.groups; simpl. rewrite N, V. reflexivity. }
  split; [exact G | rewrite input_to_point_cases, G; reflexivity].
Qed.

Lemma wkt_with_valid_prefix_is_referenced_witness :
  input_to_point (Toy.wkt_input (u " CRS=EPSG:3857;LINESTRING(0 0, 2 4)"))
  = Return (VReferencedPointXY (L := Toy.lib) (1, 2)%Z (Toy.Epsg 3857)).
Proof.
  refine (proj2 (wkt_with_valid_prefix_is_referenced (L := Toy.lib)
           (Toy.wkt_input (u " CRS=EPSG:3857;LINESTRING(0 0, 2 4)"))
           (u " ") (u "EPSG:3857") (u "LINESTRING(0 0, 2 4)")
           eq_refl eq_refl _ _ _ eq_refl eq_refl eq_refl));
    repeat constructor.
Defined.

(** ** The exceptions of [input_to_geometry] *)

(** X4.  A text that OGR cannot read fails with [InvalidParameterValue]
    under the name of its declared format: GeoJSON, or GML for an input
    that does not also declare the GeoJSON type. *)
Theorem malformed_ogr_payload_raises {L : GeoLib}
        (inp : WPSInput) (text msg : str) :
  ~ declares inp FORMATS_WKT ->
  data inp = PText text ->
  (declares inp FORMATS_GEOJSON /\ CreateGeometryFromJson text = None
   /\ msg = u "Invalid geojson format")
  \/ (~ declares inp FORMATS_GEOJSON /\ declares inp FORMATS_GML
      /\ CreateGeometryFromGML text = None
      /\ msg = u "Invalid gml format") ->
  input_to_geometry inp = Raise (InvalidParameterValue msg) /\
  input_to_point inp = Raise (InvalidParameterValue msg).
Proof.
  intros W D H.
  assert (G : input_to_geometry inp = Raise (InvalidParameterValue msg)).
  { unfold input_to_geometry, ogr_parse.
    rewrite (not_declares_eqb _ _ W), D.
    destruct H as [(J & E & ->) | (J & G & E & ->)].
    - rewrite (declares_eqb _ _ J); simpl; rewrite E; reflexivity.
    - rewrite (not_declares_eqb _ _ J), (declares_eqb _ _ G); simpl.
      rewrite E; reflexivity. }
  split; [exact G | rewrite input_to_point_cases, G; reflexivity].
Qed.

Lemma malformed_ogr_payload_raises_witness :
  input_to_geometry (Toy.geojson_input (u "{}"))
  = Raise (InvalidParameterValue (u "Invalid geojson format")) /\
  input_to_geometry
    (Toy.complex_input (u "<gml:Point/>") (u "application/gml+xml"))
  = Raise (InvalidParameterValue (u "Invalid gml format")).
Proof.
  split.
  - refine (proj1 (malformed_ogr_payload_raises (L := Toy.lib)
             (Toy.geojson_input (u "{}")) (u "{}") _ _ eq_refl _)).
    + intros H; vm_compute in H; discriminate H.
    + left. repeat split; reflexivity.
  - refine (proj1 (malformed_ogr_payload_raises (L := Toy.lib)
             (Toy.complex_input (u "<gml:Point/>") (u "application/gml+xml"))
             (u "<gml:Point/>") _ _ eq_refl _)).
    + intros H; vm_compute in H; discriminate H.
    + right. repeat split; try reflexivity.
      intros H; vm_compute in H; discriminate H.
Defined.

Lemma declares_dec {L : GeoLib} (inp : WPSInput) (f : Format) :
  (declares inp f /\
   str_eqb (mime_type (data_format inp)) (mime_type f) = true)
  \/ (~ declares inp f /\
      str_eqb (mime_type (data_format inp)) (mime_type f) = false).
Proof.
  destruct (str_eqb (mime_type (data_format inp)) (mime_type f)) eqn:E.
  - left. split; [apply str_eqb_eq, E | reflexivity].
  - right. split; [|reflexivity]. intros H.
    apply str_eqb_eq in H. unfold declares in *. congruence.
Qed.

Lemma wkt_to_goeometry_raises {L : GeoLib} (wkt : str) (e : exn) :
  wkt_to_goeometry wkt = Raise e ->
  e = InvalidParameterValue (u "Invalid wkt format").
Proof.
  unfold wkt_to_goeometry.
  destruct (Re.match_ WKT_EXPR wkt) as [m|].
  - cbv zeta. destruct (negb _); [destruct (isValid _)|]; discriminate.
  - intros H; inversion H; reflexivity.
Qed.

(** The exceptions of [input_to_geometry], by declared format. *)
Lemma input_to_geometry_raises_cases {L : GeoLib}
        (inp : WPSInput) (e : exn) :
  input_to_geometry inp = Raise e ->
  (declares inp FORMATS_WKT /\
   ((exists l, data inp = PSeq l /\ e = TypeError) \/
    (exists wkt, data inp = PText wkt /\ one_line (skip_ws wkt) = false /\
                 e = InvalidParameterValue (u "Invalid wkt format"))))
  \/ (~ declares inp FORMATS_WKT /\ declares inp FORMATS_GEOJSON /\
      (e = TypeError \/ e = InvalidParameterValue (u "Invalid geojson format")))
  \/ (~ declares inp FORMATS_WKT /\ ~ declares inp FORMATS_GEOJSON /\
      declares inp FORMATS_GML /\
      (e = TypeError \/ e = InvalidParameterValue (u "Invalid gml format")))
  \/ (~ declares inp FORMATS_WKT /\ ~ declares inp FORMATS_GEOJSON /\
      ~ declares inp FORMATS_GML /\
      e = NoApplicableCode
            (u "Unsupported data format: " ++ format_str (data_format inp))).
Proof.
  unfold input_to_geometry, ogr_parse.
  destruct (declares_dec inp FORMATS_WKT) as [[W ->] | [W ->]];
    [| destruct (declares_dec inp FORMATS_GEOJSON) as [[J ->] | [J ->]];
       [| destruct (declares_dec inp FORMATS_GML) as [[G ->] | [G ->]]]];
    intros H.
  - left. split; [exact W|].
    destruct (data inp) as [wkt|l]; simpl in H.
    + right. exists wkt. split; [reflexivity|].
      pose proof (wkt_to_goeometry_raises wkt e H) as ->. split; [|reflexivity].
      destruct (one_line (skip_ws wkt)) eqn:O; [|reflexivity].
      apply one_line_iff, WKT_EXPR_complete in O as [m M].
      unfold wkt_to_goeometry in H. rewrite M in H. cbv zeta in H.
      destruct (negb _); [destruct (isValid _)|]; discriminate.
    + left. exists l. inversion H; auto.
  - right; left. split; [exact W | split; [exact J|]].
    destruct (data inp) as [text|l]; simpl in H.
    + destruct (CreateGeometryFromJson text); simpl in H; inversion H; auto.
    + inversion H; auto.
  - right; right; left. repeat (split; [assumption|]).
    destruct (data inp) as [text|l]; simpl in H.
    + destruct (CreateGeometryFromGML text); simpl in H; inversion H; auto.
    + inversion H; auto.
  - right; right; right. repeat (split; [assumption|]).
    simpl in H. inversion H; reflexivity.
Qed.

(** X5.  The exceptions of [input_to_geometry], by declared format.  A WKT
    input raises only [InvalidParameterValue('Invalid wkt format')], and
    that only on a text the pattern rejects; a GeoJSON or GML input raises
    only [InvalidParameterValue] under the name of its format; under each
    of the three, a payload that is not a text raises [TypeError];
    [NoApplicableCode] is raised for no other reason than a format that is
    none of the three. *)
Theorem input_to_geometry_exceptions {L : GeoLib}
        (inp : WPSInput) (e : exn) :
  input_to_geometry inp = Raise e ->
  (declares inp FORMATS_WKT /\
   ((exists l, data inp = PSeq l /\ e = TypeError) \/
    (exists wkt, data inp = PText wkt /\ one_line (skip_ws wkt) = false /\
                 e = InvalidParameterValue (u "Invalid wkt format"))))
  \/ (~ declares inp FORMATS_WKT /\ declares inp FORMATS_GEOJSON /\
      (e = TypeError \/ e = InvalidParameterValue (u "Invalid geojson format")))
  \/ (~ declares inp FORMATS_WKT /\ ~ declares inp FORMATS_GEOJSON /\
      declares inp FORMATS_GML /\
      (e = TypeError \/ e = InvalidParameterValue (u "Invalid gml format")))
  \/ (~ declares inp FORMATS_WKT /\ ~ declares inp FORMATS_GEOJSON /\
      ~ declares inp FORMATS_GML /\
      e = NoApplicableCode
            (u "Unsupported data format: " ++ format_str (data_format inp))).
Proof. apply input_to_geometry_raises_cases. Qed.

Lemma input_to_geometry_exceptions_witness :
  let wkt := u "POINT(1" ++ [LF] ++ u "2)" in
  input_to_geometry (Toy.wkt_input wkt)
  = Raise (InvalidParameterValue (u "Invalid wkt format")) /\
  one_line (skip_ws wkt) = false.
Proof.
  cbv zeta. split; [reflexivity|].
  destruct (input_to_geometry_exceptions (L := Toy.lib)
              (Toy.wkt_input (u "POINT(1" ++ [LF] ++ u "2)"))
              (InvalidParameterValue (u "Invalid wkt format")) eq_refl)
    as [[_ [(l & D & _) | (wkt & D & O & _)]]
       | [(W & _) | [(W & _) | (W & _)]]].
  - discriminate D.
  - inversion D; subst wkt; exact O.
  - exfalso; apply W; reflexivity.
  - exfalso; apply W; reflexivity.
  - exfalso; apply W; reflexivity.
Defined.

(** ** The values of [input_to_geometry] and [input_to_point] *)

Lemma wkt_to_goeometry_values {L : GeoLib} (wkt : str) (v : value) :
  wkt_to_goeometry wkt = Return v ->
  (exists g, v = VGeometry g) \/
  (exists g c, v = VReferencedGeometry g c /\ isNull g = false
               /\ isValid c = true).
Proof.
  unfold wkt_to_goeometry.
  destruct (Re.match_ WKT_EXPR wkt) as [m|]; [|discriminate].
  cbv zeta. destruct (isNull _) eqn:N; simpl.
  - intros H; inversion H; eauto.
  - destruct (isValid _) eqn:V; intros H; inversion H; eauto 6.
Qed.

Lemma input_to_geometry_values {L : GeoLib} (inp : WPSInput) (v : value) :
  input_to_geometry inp = Return v ->
  (exists g, v = VGeometry g) \/ (exists g c, v = VReferencedGeometry g c).
Proof.
  unfold input_to_geometry. destruct (str_eqb _ _).
  - destruct (as_text (data inp)) as [text|e]; simpl; [|discriminate].
    intros H. destruct (wkt_to_goeometry_values text v H)
      as [[g ->] | (g & c & -> & _)]; eauto.
  - destruct (ogr_parse inp) as [[geom|]|e]; simpl; try discriminate.
    intros H; inversion H. unfold ogr_to_qgis.
    destruct (GetSpatialReference geom); [destruct (isValid _)|]; eauto.
Qed.

(** X6.  On the WKT path a CRS is attached to a geometry that is not null
    only: a referenced geometry decoded from a WKT input is not null, and
    its CRS is valid. *)
Theorem wkt_referenced_geometry_is_not_null {L : GeoLib} (inp : WPSInput)
        (g : QgsGeometry) (c : QgsCoordinateReferenceSystem) :
  declares inp FORMATS_WKT ->
  input_to_geometry inp = Return (VReferencedGeometry g c) ->
  isNull g = false /\ isValid c = true.
Proof.
  intros W. unfold input_to_geometry. rewrite (declares_eqb _ _ W).
  destruct (as_text (data inp)) as [text|e]; simpl; [|discriminate].
  intros H. destruct (wkt_to_goeometry_values text _ H)
    as [[g' E] | (g' & c' & E & N & V)]; inversion E; subst; auto.
Qed.

Lemma wkt_referenced_geometry_is_not_null_witness :
  Toy.is_null (Toy.Point 1 2) = false /\ Toy.is_valid (Toy.Epsg 4326) = true.
Proof.
  exact (wkt_referenced_geometry_is_not_null (L := Toy.lib)
           (Toy.wkt_input (u "CRS=EPSG:4326;POINT(1 2)"))
           (Toy.Point 1 2) (Toy.Epsg 4326) eq_refl eq_refl).
Defined.

(** X7.  What [input_to_point] returns is either the geometry without CRS
    that [input_to_geometry] decoded, as it is, or the referenced point at
    the centroid of the referenced geometry it decoded, under the same,
    valid, CRS: never a referenced geometry, a bare point or a rectangle. *)
Theorem input_to_point_values {L : GeoLib} (inp : WPSInput) (v : value) :
  input_to_point inp = Return v ->
  (exists g, v = VGeometry g /\ input_to_geometry inp = Return (VGeometry g))
  \/ (exists g c, v = VReferencedPointXY (asPoint (centroid g)) c
                  /\ input_to_geometry inp = Return (VReferencedGeometry g c)
                  /\ isValid c = true).
Proof.
  rewrite input_to_point_cases.
  destruct (input_to_geometry inp) as [w|e] eqn:G; [|discriminate].
  destruct (input_to_geometry_values inp w G) as [[g ->] | (g & c & ->)];
    intros H; inversion H; subst.
  - left; eauto.
  - right. exists g, c. repeat split.
    exact (input_to_geometry_valid inp _ c G eq_refl).
Qed.

Lemma input_to_point_values_witness :
  exists g c,
    VReferencedPointXY (L := Toy.lib) (1, 2)%Z (Toy.Epsg 3857)
    = VReferencedPointXY (asPoint (centroid g)) c
    /\ input_to_geometry
         (Toy.wkt_input (u "CRS=EPSG:3857;LINESTRING(0 0, 2 4)"))
       = Return (VReferencedGeometry g c)
    /\ isValid c = true.
Proof.
  destruct (input_to_point_values (L := Toy.lib)
              (Toy.wkt_input (u "CRS=EPSG:3857;LINESTRING(0 0, 2 4)"))
              (VReferencedPointXY (L := Toy.lib) (1, 2)%Z (Toy.Epsg 3857))
              eq_refl) as [(g & E & _) | H].
  - discriminate E.
  - exact H.
Defined.

(** ** When [input_to_extent] returns *)

(** X9.  [input_to_extent] returns a value exactly when the payload has
    four first elements and [float] converts each of them; the value is
    then the rectangle of these numbers, taken in the order first, third,
    second, fourth, with the CRS built from the declared CRS string. *)
Theorem input_to_extent_returns_iff {L : GeoLib} (inp : WPSInput) (v : value) :
  input_to_extent inp = Return v <->
  exists a b c d x0 x1 x2 x3,
    index (data inp) 0 = Return a /\ index (data inp) 1 = Return b /\
    index (data inp) 2 = Return c /\ index (data inp) 3 = Return d /\
    py_float a = Return x0 /\ py_float b = Return x1 /\
    py_float c = Return x2 /\ py_float d = Return x3 /\
    v = VReferencedRectangle (rect_new x0 x2 x1 x3) (crs_new (crs inp)).
Proof.
  unfold input_to_extent. split.
  - destruct (index (data inp) 0) as [a|] eqn:I0; simpl; [|discriminate].
    destruct (py_float a) as [x0|] eqn:F0; simpl; [|discriminate].
    destruct (index (data inp) 2) as [c|] eqn:I2; simpl; [|discriminate].
    destruct (py_float c) as [x2|] eqn:F2; simpl; [|discriminate].
    destruct (index (data inp) 1) as [b|] eqn:I1; simpl; [|discriminate].
    destruct (py_float b) as [x1|] eqn:F1; simpl; [|discriminate].
    destruct (index (data inp) 3) as [d|] eqn:I3; simpl; [|discriminate].
    destruct (py_float d) as [x3|] eqn:F3; simpl; [|discriminate].
    intros H; inversion H.
    exists a, b, c, d, x0, x1, x2, x3.
    repeat split; first [assumption | reflexivity].
  - intros (a & b & c & d & x0 & x1 & x2 & x3
            & I0 & I1 & I2 & I3 & F0 & F1 & F2 & F3 & ->).
    rewrite I0, I2, I1, I3; simpl.
    rewrite F0; simpl. rewrite F2; simpl. rewrite F1; simpl.
    rewrite F3; simpl. reflexivity.
Qed.

(** ** The inputs defined for a parameter *)

Section Dict.

Context {L : GeoLib} {IO : Inout}.

Lemma dict_get_set (k : str) (v : kwvalue) (d : kwargs) :
  dict_get k (dict_set k v d) = Some v.
Proof.
  induction d as [|[k' v'] d IH]; simpl.
  - rewrite (proj2 (str_eqb_eq k k) eq_refl). reflexivity.
  - destruct (str_eqb k' k) eqn:E; simpl; rewrite E; auto.
Qed.

Lemma dict_get_set_other (k k0 : str) (v : kwvalue) (d : kwargs) :
  k0 <> k -> dict_get k0 (dict_set k v d) = dict_get k0 d.
Proof.
  intros N. induction d as [|[k' v'] d IH]; simpl.
  - rewrite (str_eqb_neq k k0); [reflexivity | congruence].
  - destruct (str_eqb k' k) eqn:E; simpl.
    + apply str_eqb_eq in E; subst k'.
      rewrite (str_eqb_neq k k0); [reflexivity | congruence].
    + destruct (str_eqb k' k0); [reflexivity | exact IH].
Qed.

Lemma dict_set_twice (k : str) (v : kwvalue) (d : kwargs) :
  dict_set k v (dict_set k v d) = dict_set k v d.
Proof.
  induction d as [|[k' v'] d IH]; simpl.
  - rewrite (proj2 (str_eqb_eq k k) eq_refl). reflexivity.
  - destruct (str_eqb k' k) eqn:E; simpl; rewrite E; congruence.
Qed.

Lemma isinstance_geometry_types (param : QgsProcessingParameterDefinition) :
  isinstance param GeometryParameterTypes
  = isinstance param [ParameterGeometry] || isinstance param [ParameterPoint].
Proof. unfold isinstance. destruct (param_class_of param); reflexivity. Qed.

(** An input that declares none of the three formats is not decoded. *)
Lemma input_to_geometry_unsupported (inp : WPSInput) :
  ~ declares inp FORMATS_WKT ->
  ~ declares inp FORMATS_GEOJSON ->
  ~ declares inp FORMATS_GML ->
  input_to_geometry inp
  = Raise (NoApplicableCode
             (u "Unsupported data format: " ++ format_str (data_format inp))).
Proof.
  intros W J G. unfold input_to_geometry, ogr_parse.
  rewrite (not_declares_eqb _ _ W), (not_declares_eqb _ _ J),
          (not_declares_eqb _ _ G). reflexivity.
Qed.

End Dict.

(** X10.  For a parameter of type [extent], whatever its class,
    [parse_input_definition] builds a [BoundingBoxInput] from the caller's
    keywords with [crss] set to the single CRS [EPSG:4326]: a [crss] the
    caller gave is replaced, every other keyword is kept, the caller's dict
    holds the same update, and defining the input again from the updated
    dict changes nothing. *)
Theorem parse_extent_forces_crss {L : GeoLib} {IO : Inout}
        (param : QgsProcessingParameterDefinition) (kw : kwargs) :
  param_type param = u "extent" ->
  exists kw',
    parse_input_definition param kw = (kw', Some (BoundingBoxInput kw'))
    /\ dict_get (u "crss") kw' = Some (KwCrss [u "EPSG:4326"])
    /\ (forall k, k <> u "crss" -> dict_get k kw' = dict_get k kw)
    /\ parse_input_definition param kw' = (kw', Some (BoundingBoxInput kw')).
Proof.
  intros T. exists (dict_set (u "crss") (KwCrss [u "EPSG:4326"]) kw).
  unfold parse_input_definition. rewrite T.
  change (str_eqb (u "extent") (u "extent")) with true. cbv iota zeta.
  rewrite dict_set_twice. repeat split.
  - apply dict_get_set.
  - intros k N. apply dict_get_set_other, N.
Qed.

Lemma parse_extent_forces_crss_witness :
  let kw := [(u "identifier", ToyIO.any (u "EXTENT"));
             (u "crss", KwCrss [u "EPSG:2154"; u "EPSG:3857"]);
             (u "title", ToyIO.any (u "Extent"))] in
  exists kw',
    parse_input_definition (ToyIO.param (u "extent") ParameterGeometry) kw
    = (kw', Some (BoundingBoxInput kw'))
    /\ dict_get (u "crss") kw' = Some (KwCrss [u "EPSG:4326"])
    /\ (forall k, k <> u "crss" -> dict_get k kw' = dict_get k kw)
    /\ parse_input_definition (ToyIO.param (u "extent") ParameterGeometry) kw'
       = (kw', Some (BoundingBoxInput kw')).
Proof.
  cbv zeta.
  exact (parse_extent_forces_crss (L := Toy.lib) (IO := ToyIO.io)
           (ToyIO.param (u "extent") ParameterGeometry) _ eq_refl).
Defined.

(** X11.  For a point or geometry parameter whose type is not [extent],
    [parse_input_definition] builds a [ComplexInput] from the caller's
    keywords with [supported_formats] set to GeoJSON, GML and WKT, every
    other keyword kept.  Given that [Format.from_definition] keeps the
    MIME type, the formats so advertised are exactly those
    [input_to_geometry] decodes: an input declares one of them if and only
    if [input_to_geometry] does not answer it with [NoApplicableCode]. *)
Theorem advertised_formats_are_decoded {L : GeoLib} {IO : Inout}
        (param : QgsProcessingParameterDefinition) (kw : kwargs) :
  (forall f, mime_type (from_definition f) = mime_type f) ->
  param_type param <> u "extent" ->
  param_class_of param = ParameterPoint
  \/ param_class_of param = ParameterGeometry ->
  exists kw' fmts,
    parse_input_definition param kw = (kw', Some (ComplexInput kw'))
    /\ dict_get (u "supported_formats") kw' = Some (KwFormats fmts)
    /\ map mime_type fmts
       = [mime_type FORMATS_GEOJSON; mime_type FORMATS_GML;
          mime_type FORMATS_WKT]
    /\ (forall k, k <> u "supported_formats" ->
                  dict_get k kw' = dict_get k kw)
    /\ (forall inp,
          (exists f, In f fmts /\ declares inp f) <->
          (forall msg, input_to_geometry inp <> Raise (NoApplicableCode msg))).
Proof.
  intros M T C.
  exists (dict_set (u "supported_formats")
            (KwFormats [from_definition FORMATS_GEOJSON;
                        from_definition FORMATS_GML;
                        from_definition FORMATS_WKT]) kw),
         [from_definition FORMATS_GEOJSON; from_definition FORMATS_GML;
          from_definition FORMATS_WKT].
  split; [|split; [|split; [|split]]].
  - unfold parse_input_definition. rewrite (str_eqb_neq _ _ T).
    unfold isinstance. destruct C as [-> | ->]; reflexivity.
  - apply dict_get_set.
  - simpl. rewrite !M. reflexivity.
  - intros k N. apply dict_get_set_other, N.
  - intros inp. split.
    + intros (f & I & D) msg H. unfold declares in D.
      destruct (input_to_geometry_raises_cases inp _ H)
        as [(_ & [(l & _ & E) | (wkt & _ & _ & E)])
           | [(_ & _ & [E|E]) | [(_ & _ & _ & [E|E]) | (W & J & G & _)]]];
        try discriminate E.
      simpl in I. destruct I as [<- | [<- | [<- | []]]]; rewrite M in D;
        [apply J | apply G | apply W]; exact D.
    + intros H.
      destruct (declares_dec inp FORMATS_WKT) as [[W _] | [W _]].
      { exists (from_definition FORMATS_WKT). split; [simpl; auto|].
        unfold declares in *. rewrite M. exact W. }
      destruct (declares_dec inp FORMATS_GEOJSON) as [[J _] | [J _]].
      { exists (from_definition FORMATS_GEOJSON). split; [simpl; auto|].
        unfold declares in *. rewrite M. exact J. }
      destruct (declares_dec inp FORMATS_GML) as [[G _] | [G _]].
      { exists (from_definition FORMATS_GML). split; [simpl; auto|].
        unfold declares in *. rewrite M. exact G. }
      exfalso. exact (H _ (input_to_geometry_unsupported inp W J G)).
Qed.

Lemma advertised_formats_are_decoded_witness :
  exists kw' fmts,
    parse_input_definition (ToyIO.param (u "point") ParameterPoint)
                           [(u "identifier", ToyIO.any (u "POINT"))]
    = (kw', Some (ComplexInput kw'))
    /\ dict_get (u "supported_formats") kw' = Some (KwFormats fmts)
    /\ fmts = [u "application/vnd.geo+json"; u "application/gml+xml";
               u "application/wkt"].
Proof.
  destruct (advertised_formats_are_decoded (L := Toy.lib) (IO := ToyIO.io)
              (ToyIO.param (u "point") ParameterPoint)
              [(u "identifier", ToyIO.any (u "POINT"))])
    as (kw' & fmts & P & G & Mm & _).
  - reflexivity.
  - intros H; vm_compute in H; discriminate H.
  - left; reflexivity.
  - exists kw', fmts. repeat split; [exact P | exact G |].
    rewrite <- (map_id fmts). exact Mm.
Defined.

(** ** Parameters without input, parameters without value *)

(** X12.  [parse_input_definition] defines no input for a parameter
    exactly when [get_processing_value] has no value for it, whatever
    inputs are given: the two functions handle the same parameters, though
    one tests the type first and the other the class.  For a parameter
    they handle, [get_processing_value] raises [IndexError] on an empty
    list of inputs, and otherwise reads the first input only, and never
    the context. *)
Theorem no_input_iff_no_value {L : GeoLib} {IO : Inout}
        (param : QgsProcessingParameterDefinition) (kw : kwargs)
        (inp : list WPSInput) (context : ProcessingContext) :
  (snd (parse_input_definition param kw) = None
   <-> get_processing_value param inp context = Return None)
  /\ (snd (parse_input_definition param kw) <> None ->
      get_processing_value param [] context = Raise IndexError)
  /\ (forall i rest context',
        get_processing_value param (i :: rest) context
        = get_processing_value param [i] context').
Proof.
  unfold parse_input_definition, get_processing_value, isinstance.
  assert (P : forall (f : WPSInput -> result value),
            (i <- first_input inp ;; value <- f i ;; Return (Some value))
            <> Return None).
  { intros f. destruct inp as [|i rest]; simpl; [discriminate|].
    destruct (f i); simpl; discriminate. }
  destruct (str_eqb (param_type param) (u "extent"));
    destruct (param_class_of param); simpl;
    (split; [split; intros H;
               first [discriminate H | reflexivity | exact H
                     | exfalso; exact (P _ H)]
            | split; [intros H; first [reflexivity | exfalso; apply H; reflexivity]
                     | reflexivity]]).
Qed.

(** ** What a match says about the text *)

Lemma WKT_EXPR_inversion (s : str) (m : Re.caps) :
  Re.match_ WKT_EXPR s = Some m ->
  exists w x e,
    s = w ++ x ++ e /\ Forall (fun a => is_space a = true) w /\
    Forall (fun a => is_dot a = true) x /\ Re.at_end e = true /\
    (m = [(2, x)] \/
     exists c b, x = u "CRS=" ++ c ++ SEMI :: b /\
                 existsb (N.eqb SEMI) b = false /\ m = [(2, b); (1, c)]).
Proof.
  intros H. rewrite WKT_EXPR_skip_ws in H.
  destruct (skip_ws_split s) as (w & E & Fw).
  pose proof (after_ws_sound _ _ H) as (x & e & R & F & He).
  exists w, x, e. rewrite <- R. repeat split; auto.
  rewrite R, (after_ws_split x e F He) in H.
  destruct (starts_with (u "CRS=") x) eqn:S.
  - apply starts_with_split in S. change (length (u "CRS=")) with 4 in S.
    destruct (cut_last_semi (skipn 4 x)) as [[c b]|] eqn:C.
    + apply cut_last_semi_some in C as [C Hb]. rewrite C in S.
      right. exists c, b. inversion H. auto.
    + left. inversion H; reflexivity.
  - left. inversion H; reflexivity.
Qed.

(** X13.  When the pattern matches, the text is made of its groups: it is
    whitespace, then [CRS=], the specifier and a semicolon if group 1 took
    part, then the body, then at most one line feed.  Neither group holds
    a line feed, and beside a specifier the body holds no semicolon. *)
Theorem WKT_EXPR_match_rebuilds_text (s : str) (m : Re.caps) :
  Re.match_ WKT_EXPR s = Some m ->
  let c := nth 0 (Re.groups [] m) [] in
  let b := nth 1 (Re.groups [] m) [] in
  Forall (fun a => a <> LF) c /\ Forall (fun a => a <> LF) b /\
  (Re.get 1 m <> None -> ~ In SEMI b) /\
  exists w e,
    Forall (fun a => is_space a = true) w /\ (e = [] \/ e = [LF]) /\
    s = w ++ match Re.get 1 m with
             | Some c => u "CRS=" ++ c ++ [SEMI]
             | None => []
             end ++ b ++ e.
Proof.
  assert (D : forall l, Forall (fun a => is_dot a = true) l ->
                        Forall (fun a => a <> LF) l).
  { intros l F. eapply Forall_impl; [|exact F]. intros a Ha ->.
    discriminate Ha. }
  intros H.
  destruct (WKT_EXPR_inversion s m H)
    as (w & x & e & E & Fw & Fx & He & [-> | (c & b & X & Hb & ->)]);
    cbv zeta; unfold Re.groups; simpl.
  - split; [constructor | split; [auto | split]].
    + intros N; exfalso; apply N; reflexivity.
    + exists w, e. split; [exact Fw | split; [apply at_end_cases, He | exact E]].
  - rewrite X in Fx. apply Forall_app in Fx as [_ Fx].
    apply Forall_app in Fx as [Fc Fb]. inversion Fb; subst x.
    split; [auto | split; [auto | split]].
    + intros _ I.
      assert (T : existsb (N.eqb SEMI) b = true)
        by (apply existsb_exists; exists SEMI; split;
            [exact I | apply N.eqb_refl]).
      congruence.
    + exists w, e. split; [exact Fw | split; [apply at_end_cases, He|]].
      rewrite E. repeat rewrite <- app_assoc. reflexivity.
Qed.

Lemma WKT_EXPR_match_rebuilds_text_witness :
  exists w e,
    Forall (fun a => is_space a = true) w /\ (e = [] \/ e = [LF]) /\
    u " CRS=EPSG:4326;x;POINT(1 2)" ++ [LF]
    = w ++ (u "CRS=" ++ u "EPSG:4326;x" ++ [SEMI]) ++ u "POINT(1 2)" ++ e.
Proof.
  exact (proj2 (proj2 (proj2
    (WKT_EXPR_match_rebuilds_text
       (u " CRS=EPSG:4326;x;POINT(1 2)" ++ [LF])
       [(2, u "POINT(1 2)"); (1, u "EPSG:4326;x")] eq_refl)))).
Defined.

(** ** The OGR paths with a valid spatial reference *)

(** X14.  A GeoJSON or GML input that OGR reads into a geometry with a
    spatial reference whose WKT builds a valid CRS decodes to the geometry
    re-constructed from OGR's WKT export, referenced by that CRS, and, as
    a point, to its centroid under that CRS.  Unlike the WKT path, these
    paths do not test the re-constructed geometry for null before they
    attach the CRS. *)
Theorem ogr_with_valid_srs_is_referenced {L : GeoLib}
        (inp : WPSInput) (geom : OgrGeometry) (srs : SpatialReference) :
  decoded_by_ogr inp geom ->
  GetSpatialReference geom = Some srs ->
  isValid (crs_fromWkt (srs_ExportToWkt srs)) = true ->
  let g := fromWkt (ExportToWkt geom) in
  let c := crs_fromWkt (srs_ExportToWkt srs) in
  input_to_geometry inp = Return (VReferencedGeometry g c) /\
  input_to_point inp = Return (VReferencedPointXY (asPoint (centroid g)) c).
Proof.
  intros O S V g c.
  assert (G : input_to_geometry inp = Return (VReferencedGeometry g c)).
  { rewrite (input_to_geometry_ogr inp geom O). unfold ogr_to_qgis.
    rewrite S. cbv zeta. rewrite V. reflexivity. }
  split; [exact G | rewrite input_to_point_cases, G; reflexivity].
Qed.

Lemma ogr_with_valid_srs_is_referenced_witness :
  let json := u "{" ++ Toy.dq "type" ++ u ":" ++ Toy.dq "Point" ++ u ","
                ++ Toy.dq "coordinates" ++ u ":[3,4]}" in
  input_to_point (Toy.geojson_input json)
  = Return (VReferencedPointXY (L := Toy.lib) (3, 4)%Z (Toy.Epsg 4326)).
Proof.
  cbv zeta.
  refine (proj2 (ogr_with_valid_srs_is_referenced (L := Toy.lib)
    (Toy.geojson_input
       (u "{" ++ Toy.dq "type" ++ u ":" ++ Toy.dq "Point" ++ u ","
          ++ Toy.dq "coordinates" ++ u ":[3,4]}"))
    {| Toy.ogr_xy := (3, 4)%Z; Toy.ogr_srs := Some 4326%N |} 4326%N
    _ eq_refl eq_refl)).
  split.
  - intros H; vm_compute in H; discriminate H.
  - eexists. split; [reflexivity|]. left. split; reflexivity.
Defined.
